(** * Gamification ledger, answer classifier and weak-area extractor

    A shallow embedding of the algorithmic core of the tutoring platform:

    - [Database.add_points], [Database._check_and_award_badges],
      [Database._has_badge] and [Database._initialize_gamification]
      (src/database.py), over an explicit database state;
    - the correctness classification of [evaluate_answer]
      (src/models_utils.py) and its copy in [Database.save_practice_result]
      (src/database.py);
    - [Database._extract_weak_areas_from_analysis] (src/database.py);
    - [Database.save_practice_result], [Database.create_user],
      [Database.save_curriculum], [Database.get_curriculum] and
      [Database.add_subject_for_class] (src/database.py);
    - [TutorAgent.evaluate_answer] and [TutorAgent.auto_evaluate_quiz]
      (src/models_utils.py), with the reply of the language model as an
      input;
    - [validate_email], [validate_password] and the checks of the sign-up
      form (src/app.py).

    Conventions.
    - Integers of the store and of Python are [Z]; a calendar date is the
      number of its day ([Z]), so that [(today - last_date).days] is a
      subtraction; the clock [datetime.now().date()] is the argument [today].
    - The table [student_gamification] is a finite map from [student_id]
      to its row; [badges] and [notifications] are insertion logs (lists,
      oldest first), since duplicates are what some properties are about.
    - A [str] is held as the bytes of its UTF-8 encoding (a [string]).  A
      character of a bracket class that is not ASCII (the en dash and the
      round bullet of the extractor) is the sequence of its bytes, and
      [len] counts characters, not bytes.  The classes [\s], [\d], [\w],
      the case of letters and [str.strip] are given on ASCII.
    - The connection is taken to be up and every statement to succeed: the
      [except] branches, which only report a failed connection or statement,
      are not part of the model. *)

From Stdlib Require Import ZArith Ascii List Lia Bool.
From Stdlib Require String DecimalString.
From stdpp Require Import base gmap list strings.

Local Open Scope Z_scope.

(** ** The store *)

Module Store.

(** A row of [student_gamification]. *)
Record profile : Type := Profile {
  total_points : Z;
  level : Z;
  current_streak : Z;
  longest_streak : Z;
  last_activity_date : option Z
}.

(** A row of [badges], as inserted by [_check_and_award_badges]. *)
Record badge : Type := Badge {
  badge_student_id : Z;
  badge_name : string;
  badge_description : string;
  badge_icon : string
}.

(** A row of [notifications]. *)
Record notification : Type := Notification {
  user_id : Z;
  title : string;
  message : string;
  notification_type : string
}.

Record Db : Type := MkDb {
  student_gamification : gmap Z profile;
  badges : list badge;
  notifications : list notification
}.

(** Modelled from the spec: the column defaults of [student_gamification],
    whose schema is not part of the sources.  The spec's data model creates
    a profile "with zero defaults": no points, no streak, no activity date,
    and the level that the level rule gives for zero points. *)
Definition default_profile : profile :=
  Profile 0 1 0 0 None.

Definition empty_db : Db := MkDb ∅ [] [].

End Store.

Export Store.

(** ** The gamification ledger (src/database.py) *)

Module Ledger.

(** [INSERT INTO student_gamification (student_id) VALUES (%s)
     ON CONFLICT (student_id) DO NOTHING] *)
Definition _initialize_gamification (db : Db) (student_id : Z) : bool * Db :=
  match student_gamification db !! student_id with
  | Some _ => (true, db)
  | None =>
      (true, MkDb (<[student_id := default_profile]> (student_gamification db))
                  (badges db) (notifications db))
  end.

(** [SELECT id FROM badges WHERE student_id = %s AND badge_name = %s],
    then [fetchone() is not None]. *)
Definition _has_badge (db : Db) (student_id : Z) (name : string) : bool :=
  existsb (fun b => (badge_student_id b =? student_id) && String.eqb (badge_name b) name)
          (badges db).

(** One [if ... and not self._has_badge(...): badges_to_award.append(...)]. *)
Definition rule (db : Db) (student_id : Z) (threshold_met : bool)
    (entry : string * string * string) : list (string * string * string) :=
  if threshold_met && negb (_has_badge db student_id (fst (fst entry)))
  then [entry] else [].

(** The body of the [for] loop: one badge row and one notification row. *)
Definition award (student_id : Z) (db : Db) (entry : string * string * string) : Db :=
  let '(name, description, icon) := entry in
  MkDb (student_gamification db)
       (badges db ++ [Badge student_id name description icon])
       (notifications db ++
          [Notification student_id "New Badge Earned!"
             ("Congratulations! You earned the '" +:+ name +:+ "' badge: " +:+ description)
             "achievement"]).

(** The two rows that [award] inserts for an entry of [badges_to_award]. *)
Definition badge_of (student_id : Z) (entry : string * string * string) : badge :=
  Badge student_id (fst (fst entry)) (snd (fst entry)) (snd entry).

Definition notification_of (student_id : Z) (entry : string * string * string)
    : notification :=
  Notification student_id "New Badge Earned!"
    ("Congratulations! You earned the '" +:+ fst (fst entry) +:+ "' badge: "
       +:+ snd (fst entry))
    "achievement".

Definition _check_and_award_badges (db : Db) (student_id new_points current_streak' : Z) : Db :=
  match student_gamification db !! student_id with
  | None => db
  | Some result =>
      let total_points' := total_points result in
      let level' := level result in
      let badges_to_award :=
        rule db student_id (100 <=? total_points') ("Century", "Earned 100 points", "🏆") ++
        rule db student_id (500 <=? total_points') ("Champion", "Earned 500 points", "🏅") ++
        rule db student_id (1000 <=? total_points') ("Legend", "Earned 1000 points", "👑") ++
        rule db student_id (7 <=? current_streak') ("Week Warrior", "7-day learning streak", "🔥") ++
        rule db student_id (30 <=? current_streak') ("Month Master", "30-day learning streak", "⭐") ++
        rule db student_id (5 <=? level') ("Rising Star", "Reached Level 5", "🌟") ++
        rule db student_id (10 <=? level') ("Superstar", "Reached Level 10", "💫") in
      fold_left (award student_id) badges_to_award db
  end.

(** The streak branch of [add_points]: [last_date] is the stored date (or
    NULL), [days_diff = (today - last_date).days]. *)
Definition new_streak (today : Z) (last_date : option Z) (current_streak' : Z) : Z :=
  match last_date with
  | Some last =>
      let days_diff := today - last in
      if days_diff =? 1 then current_streak' + 1
      else if 1 <? days_diff then 1
      else current_streak'
  | None => 1
  end.

(** The [UPDATE student_gamification SET ...] of [add_points].  The right
    hand sides read the row as it was; [/] on two integers truncates, and
    [FLOOR] of the integer quotient is that quotient. *)
Definition update_row (result : profile) (points current_streak' longest_streak' today : Z)
    : profile :=
  Profile (total_points result + points)
          ((total_points result + points) ÷ 100 + 1)
          current_streak'
          longest_streak'
          (Some today).

Definition add_points (today : Z) (db : Db) (student_id points : Z) (reason : string)
    : bool * Db :=
  match student_gamification db !! student_id with
  | Some result =>
      let current_streak' :=
        new_streak today (last_activity_date result) (current_streak result) in
      let longest_streak' := Z.max (longest_streak result) current_streak' in
      let db1 :=
        MkDb (<[student_id :=
                  update_row result points current_streak' longest_streak' today]>
                (student_gamification db))
             (badges db) (notifications db) in
      (true, _check_and_award_badges db1 student_id points current_streak')
  | None => (true, db)
  end.

(** A call of [add_points] and a run of calls, each with the date of its day. *)
Record call : Type := Call {
  call_today : Z;
  call_student_id : Z;
  call_points : Z;
  call_reason : string
}.

Definition do_call (db : Db) (c : call) : Db :=
  snd (add_points (call_today c) db (call_student_id c) (call_points c) (call_reason c)).

Definition run (db : Db) (cs : list call) : Db := fold_left do_call cs db.

(** The stored streak of a student, when there is a profile. *)
Definition streak_of (db : Db) (student_id : Z) : option Z :=
  current_streak <$> student_gamification db !! student_id.

(** Rows of [badges] with a given student and name. *)
Definition badge_rows (db : Db) (student_id : Z) (name : string) : list badge :=
  filter (fun b => badge_student_id b = student_id ∧ badge_name b = name) (badges db).

(** The invariant of the [badges] table: at most one row for a student
    and a badge name. *)
Definition badges_unique (db : Db) : Prop :=
  forall student_id name, (length (badge_rows db student_id name) <= 1)%nat.

(** The rule table of [_check_and_award_badges], in its order. *)
Definition catalog : list (string * string * string) :=
  [("Century", "Earned 100 points", "🏆");
   ("Champion", "Earned 500 points", "🏅");
   ("Legend", "Earned 1000 points", "👑");
   ("Week Warrior", "7-day learning streak", "🔥");
   ("Month Master", "30-day learning streak", "⭐");
   ("Rising Star", "Reached Level 5", "🌟");
   ("Superstar", "Reached Level 10", "💫")].

End Ledger.

Export Ledger.

(** ** Python text: [str] methods and the [re] matcher, on the bytes of a [str] *)

Module Text.

Definition text := list ascii.

Definition code (c : ascii) : N := N_of_ascii c.

Definition between (lo hi : N) (c : ascii) : bool :=
  ((lo <=? code c) && (code c <=? hi))%N.

(** [str.isspace] / [\s]: tab, newline, vertical tab, form feed, carriage
    return, the four separators 28..31 and the space. *)
Definition is_space (c : ascii) : bool := between 9 13 c || between 28 32 c.
(** [\d] *)
Definition is_digit (c : ascii) : bool := between 48 57 c.
(** [[A-Z]] and [[a-z]] *)
Definition is_upper (c : ascii) : bool := between 65 90 c.
Definition is_lower (c : ascii) : bool := between 97 122 c.
Definition is_alpha (c : ascii) : bool := is_upper c || is_lower c.
(** [\w] *)
Definition is_word (c : ascii) : bool :=
  is_alpha c || is_digit c || Ascii.eqb c "_".
(** [.] without DOTALL *)
Definition not_newline (c : ascii) : bool := negb (Ascii.eqb c "010").
(** [[\s\S]] *)
Definition any_char (c : ascii) : bool := is_space c || negb (is_space c).

Definition lower_char (c : ascii) : ascii :=
  if is_upper c then ascii_of_N (code c + 32) else c.

(** [str.lower] *)
Definition lower (s : text) : text := map lower_char s.

Fixpoint lstrip (s : text) : text :=
  match s with
  | c :: s' => if is_space c then lstrip s' else s
  | [] => []
  end.

Definition rstrip (s : text) : text := rev (lstrip (rev s)).

(** [str.strip] *)
Definition strip (s : text) : text := rstrip (lstrip s).

(** [str.startswith] *)
Fixpoint startswith (s p : text) : bool :=
  match p, s with
  | [], _ => true
  | a :: p', b :: s' => Ascii.eqb a b && startswith s' p'
  | _ :: _, [] => false
  end.

(** [str.split('\n')]: the pieces between newlines, at least one piece. *)
Fixpoint split_lines (s : text) : list text :=
  match s with
  | [] => [[]]
  | c :: s' =>
      if Ascii.eqb c "010" then [] :: split_lines s'
      else match split_lines s' with
           | l :: ls => (c :: l) :: ls
           | [] => [[c]]
           end
  end.

Definition of_string (s : string) : text := String.list_ascii_of_string s.
Definition to_string (s : text) : string := String.string_of_list_ascii s.

(** *** Regular expressions

    The fragment of Python's [re] syntax that the sources use, with the
    backtracking semantics of [re]: alternatives left to right, greedy and
    lazy stars, the anchors, the word boundary, lookahead and one group. *)
Inductive re : Type :=
  | Eps                                (* empty pattern *)
  | Chr (p : ascii -> bool)            (* one character of a class *)
  | Seq (r1 r2 : re)                   (* r1 r2 *)
  | Alt (r1 r2 : re)                   (* r1|r2 *)
  | Star (greedy : bool) (r : re)      (* r* and r*? *)
  | Bos                                (* ^ (no MULTILINE) *)
  | Eol                                (* $ (no MULTILINE) *)
  | Eos                                (* \Z *)
  | WordB                              (* \b *)
  | Look (r : re)                      (* (?=r) *)
  | Grp (r : re).                      (* (r), group 1 *)

(** The span of group 1, when it took part in the match. *)
Definition cap := option (nat * nat).
Definition outcome := option (nat * cap).

Definition word_at (s : text) (i : nat) : bool :=
  match s !! i with Some c => is_word c | None => false end.

Definition boundary (s : text) (i : nat) : bool :=
  xorb (match i with O => false | S i' => word_at s i' end) (word_at s i).

Definition at_eol (s : text) (i : nat) : bool :=
  (i =? length s)%nat ||
  ((S i =? length s)%nat &&
   match s !! i with Some c => Ascii.eqb c "010" | None => false end).

(** The iteration of a star over the matcher [m] of its body: an iteration
    has to consume something; [fuel] bounds the number of iterations and
    is never the reason to stop when it exceeds the length of the text. *)
Fixpoint star_loop (m : (nat -> cap -> outcome) -> nat -> cap -> outcome)
    (greedy : bool) (k : nat -> cap -> outcome) (fuel i : nat) (g : cap) : outcome :=
  match fuel with
  | O => k i g
  | S fuel' =>
      let again (_ : unit) :=
        m (fun j g' => if (i <? j)%nat then star_loop m greedy k fuel' j g' else None) i g in
      if greedy then
        match again tt with Some x => Some x | None => k i g end
      else
        match k i g with Some x => Some x | None => again tt end
  end.

(** [mt s r k i g]: match [r] in [s] from position [i] with group state
    [g], then continue with [k]; the first success in backtracking order. *)
Fixpoint mt (s : text) (r : re) (k : nat -> cap -> outcome) (i : nat) (g : cap)
    {struct r} : outcome :=
  match r with
  | Eps => k i g
  | Chr p =>
      match s !! i with
      | Some c => if p c then k (S i) g else None
      | None => None
      end
  | Seq r1 r2 => mt s r1 (fun j g' => mt s r2 k j g') i g
  | Alt r1 r2 =>
      match mt s r1 k i g with
      | Some x => Some x
      | None => mt s r2 k i g
      end
  | Star greedy r1 => star_loop (mt s r1) greedy k (S (length s)) i g
  | Bos => if (i =? 0)%nat then k i g else None
  | Eol => if at_eol s i then k i g else None
  | Eos => if (i =? length s)%nat then k i g else None
  | WordB => if boundary s i then k i g else None
  | Look r1 =>
      match mt s r1 (fun j g' => Some (j, g')) i g with
      | Some (_, g') => k i g'
      | None => None
      end
  | Grp r1 => mt s r1 (fun j g' => k j (Some (i, j))) i g
  end.

Definition accept : nat -> cap -> outcome := fun j g => Some (j, g).

(** [re.match]: a match that starts at position 0. *)
Definition re_match (r : re) (s : text) : outcome := mt s r accept 0%nat None.

(** [re.search]: the leftmost position with a match; start, end, group. *)
Fixpoint search_from (r : re) (s : text) (fuel i : nat) : option (nat * nat * cap) :=
  match mt s r accept i None with
  | Some (j, g) => Some (i, j, g)
  | None =>
      match fuel with
      | O => None
      | S fuel' => search_from r s fuel' (S i)
      end
  end.

Definition re_search (r : re) (s : text) : option (nat * nat * cap) :=
  search_from r s (length s) 0%nat.

(** [re.sub(r, '', s)]: the non-overlapping matches, left to right, are
    deleted. *)
Fixpoint sub_from (r : re) (s : text) (fuel i : nat) : text :=
  match fuel with
  | O => []
  | S fuel' =>
      match mt s r accept i None with
      | Some (j, _) =>
          if (i <? j)%nat then sub_from r s fuel' j
          else match s !! i with
               | Some c => c :: sub_from r s fuel' (S i)
               | None => []
               end
      | None =>
          match s !! i with
          | Some c => c :: sub_from r s fuel' (S i)
          | None => []
          end
      end
  end.

Definition re_sub_delete (r : re) (s : text) : text :=
  sub_from r s (S (length s)) 0%nat.

Definition is_some {A} (o : option A) : bool :=
  match o with Some _ => true | None => false end.

(** Pattern syntax. *)
Definition cat (rs : list re) : re := fold_right Seq Eps rs.
Fixpoint alt (rs : list re) : re :=
  match rs with
  | [] => Chr (fun _ => false)
  | [r] => r
  | r :: rs' => Alt r (alt rs')
  end.
Definition plus (r : re) : re := Seq r (Star true r).
Definition opt (r : re) : re := Alt r Eps.
Definition star (r : re) : re := Star true r.
Definition lazy_star (r : re) : re := Star false r.
(** A literal, and a literal under IGNORECASE. *)
Definition lit (w : string) : re :=
  cat (map (fun c => Chr (Ascii.eqb c)) (of_string w)).
Definition lit_i (w : string) : re :=
  cat (map (fun c => Chr (fun d => Ascii.eqb (lower_char d) (lower_char c))) (of_string w)).
Definition one_of (w : string) : re :=
  Chr (fun c => existsb (Ascii.eqb c) (of_string w)).

(** A bracket class given by its members, each the UTF-8 bytes of one
    character: [[*•-]] is [chars ["*"; "•"; "-"]]. *)
Definition chars (members : list string) : re := alt (map lit members).

(** The bytes 128..191, which continue a character. *)
Definition is_continuation (c : ascii) : bool := between 128 191 c.

(** [len(s)]: the number of characters, that is, of the bytes that start
    one. *)
Fixpoint len (s : text) : nat :=
  match s with
  | [] => 0%nat
  | c :: s' => if is_continuation c then len s' else S (len s')
  end.

(** Patterns after whose match group 1 has a span. *)
Fixpoint sets_group (r : re) : bool :=
  match r with
  | Grp _ => true
  | Seq r1 r2 => sets_group r1 || sets_group r2
  | Alt r1 r2 => sets_group r1 && sets_group r2
  | _ => false
  end.

End Text.

Export Text.

(** ** The correctness classifier of [evaluate_answer] (src/models_utils.py) *)

Module ModelsUtils.

(** [r'\b(incorrect|wrong|not correct|not right)\b'] *)
Definition negative_indicators : re :=
  cat [WordB;
       Grp (alt [lit "incorrect"; lit "wrong"; lit "not correct"; lit "not right"]);
       WordB].

(** [r'\b(^correct|right|well done|excellent|perfect|great job)\b'] *)
Definition positive_indicators : re :=
  cat [WordB;
       Grp (alt [cat [Bos; lit "correct"]; lit "right"; lit "well done";
                 lit "excellent"; lit "perfect"; lit "great job"]);
       WordB].

(** The value of [is_correct] that [evaluate_answer] computes from the
    model's [feedback]. *)
Definition is_correct (feedback : string) : bool :=
  let feedback_lower := strip (lower (of_string feedback)) in
  if startswith feedback_lower (of_string "correct") then true
  else if startswith feedback_lower (of_string "partially") then false
  else if startswith feedback_lower (of_string "incorrect")
          || startswith feedback_lower (of_string "wrong") then false
  else
    if is_some (re_search negative_indicators feedback_lower) then false
    else if is_some (re_search positive_indicators feedback_lower) then true
    else false.

End ModelsUtils.

(** ** The same classification in [save_practice_result] (src/database.py) *)

Module PracticeResult.

(** [r'\b(incorrect|wrong|not correct|not right)\b'] *)
Definition negative_words : re :=
  cat [WordB;
       Grp (alt [lit "incorrect"; lit "wrong"; lit "not correct"; lit "not right"]);
       WordB].

(** [r'\b(^correct|right|well done|excellent|perfect|great job)\b'] *)
Definition positive_words : re :=
  cat [WordB;
       Grp (alt [cat [Bos; lit "correct"]; lit "right"; lit "well done";
                 lit "excellent"; lit "perfect"; lit "great job"]);
       WordB].

(** The value of [is_correct] that [save_practice_result] computes from
    its argument [feedback], before it touches the store. *)
Definition is_correct (feedback : string) : bool :=
  let feedback_lower := strip (lower (of_string feedback)) in
  if startswith feedback_lower (of_string "correct") then true
  else if startswith feedback_lower (of_string "partially") then false
  else if startswith feedback_lower (of_string "incorrect")
          || startswith feedback_lower (of_string "wrong") then false
  else
    if is_some (re_search negative_words feedback_lower) then false
    else if is_some (re_search positive_words feedback_lower) then true
    else false.

End PracticeResult.

(** ** The weak-area extractor (src/database.py) *)

Module WeakAreas.

(** [r"AREAS?\s+FOR\s+IMPROVEMENT[:\-–]*\s*([\s\S]*?)(?=\d+\.\s+[A-Z]|\Z)"]
    under [re.IGNORECASE]: the literals and the class [[A-Z]] of the
    lookahead ignore case. *)
Definition improvement_section : re :=
  cat [lit_i "AREA"; opt (lit_i "S"); plus (Chr is_space);
       lit_i "FOR"; plus (Chr is_space);
       lit_i "IMPROVEMENT"; star (chars [":"; "-"; "–"]); star (Chr is_space);
       Grp (lazy_star (Chr any_char));
       Look (alt [cat [plus (Chr is_digit); lit "."; plus (Chr is_space); Chr is_alpha];
                  Eos])].

(** [r'^[\*•\-]+$'] *)
Definition only_bullets : re := cat [Bos; plus (chars ["*"; "•"; "-"]); Eol].

(** [r'[A-Z][a-z]+.*!$'] *)
Definition encouragement : re :=
  cat [Chr is_upper; plus (Chr is_lower); star (Chr not_newline); lit "!"; Eol].

(** [r'^\d+[\.)]\s+[A-Z]'] *)
Definition numbered_recommendation : re :=
  cat [Bos; plus (Chr is_digit); one_of ".)"; plus (Chr is_space); Chr is_upper].

(** [r'^[•\-*]\s*'] *)
Definition bullet_marker : re :=
  cat [Bos; chars ["•"; "-"; "*"]; star (Chr is_space)].

(** [s[a:b]] *)
Definition slice (s : text) (a b : nat) : text := take (b - a) (drop a s).

(** [match.group(1)]: [None] when the group took no part in the match. *)
Definition group1 (s : text) (m : nat * nat * cap) : option text :=
  match snd m with
  | Some (a, b) => Some (slice s a b)
  | None => None
  end.

Definition is_empty (s : text) : bool :=
  match s with [] => true | _ => false end.

(** What the loop body does with one line. *)
Inductive step : Type :=
  | Continue                (* [continue], or a line that is not added *)
  | Break                   (* [break] *)
  | Append (topic : text).  (* [weak_areas.append(cleaned_line)] *)

(** [re.sub(r'^[•\-*]\s*', '', line).strip()] for [line = line0.strip()]. *)
Definition cleaned (line0 : text) : text :=
  strip (re_sub_delete bullet_marker (strip line0)).

Definition line_step (line0 : text) : step :=
  let line := strip line0 in
  if is_empty line || is_some (re_match only_bullets line) then Continue
  else if startswith line (of_string "You're")
          || is_some (re_search encouragement line) then Break
  else if startswith line (of_string "|") then Break
  else if is_some (re_match numbered_recommendation line) then Break
  else
    let cleaned_line := cleaned line0 in
    if negb (is_empty cleaned_line) && (len cleaned_line <? 100)%nat
    then Append cleaned_line
    else Continue.

(** [for line in lines: ...] *)
Fixpoint scan (lines : list text) : list text :=
  match lines with
  | [] => []
  | line :: rest =>
      match line_step line with
      | Continue => scan rest
      | Break => []
      | Append topic => topic :: scan rest
      end
  end.

(** [_extract_weak_areas_from_analysis]; [None] stands for an exception
    (the only operation that can raise on a [str] argument is [.strip()]
    on a group that is [None]). *)
Definition _extract_weak_areas_from_analysis (analysis_text : string)
    : option (list string) :=
  let s := of_string analysis_text in
  match re_search improvement_section s with
  | None => Some []
  | Some m =>
      match group1 s m with
      | None => None
      | Some section =>
          let weak_section := strip section in
          if is_empty weak_section then Some []
          else Some (map to_string (scan (split_lines weak_section)))
      end
  end.

End WeakAreas.

Export WeakAreas.

(** ** Scenarios *)

Module Scenario.

(** A student who already has a profile, was active yesterday (day 100)
    and holds no badge. *)
Definition newcomer_db : Db :=
  MkDb {[ 7 := Profile 95 1 6 6 (Some 100) ]} [] [].

(** A student whose profile was created on sign-up and who then earned
    points through the application's own calls: a first week of daily
    practice, three idle days, and six more days. *)
Definition history : list call :=
  [Call 1 7 2 "Practice: Fractions"; Call 2 7 2 "Practice: Fractions";
   Call 3 7 2 "Practice: Fractions"; Call 4 7 2 "Practice: Fractions";
   Call 5 7 2 "Practice: Fractions"; Call 6 7 2 "Practice: Fractions";
   Call 7 7 2 "Practice: Fractions";
   Call 11 7 30 "Quiz Excellence (90%+)"; Call 12 7 30 "Quiz Excellence (90%+)";
   Call 13 7 10 "Paper Analysis Completed"; Call 14 7 5 "Practice: Decimals";
   Call 15 7 3 "Asked question about Decimals";
   Call 16 7 3 "Asked question about Decimals"].

Definition veteran_db : Db :=
  run (snd (_initialize_gamification empty_db 7)) history.

(** A profile whose last activity is dated tomorrow (day 101, today 100). *)
Definition skewed_db : Db :=
  MkDb {[ 7 := Profile 40 1 5 9 (Some 101) ]} [] [].

End Scenario.

(** ** Invariants of the ledger *)

Module LedgerInvariants.

(** What a stored profile satisfies once it comes from the defaults and
    from [add_points]: the level follows the total and the longest streak
    bounds the current one. *)
Definition profile_ok (p : profile) : Prop :=
  0 <= total_points p /\
  level p = total_points p / 100 + 1 /\
  0 <= current_streak p <= longest_streak p.

Definition ledger_ok (db : Db) : Prop :=
  forall student_id p, student_gamification db !! student_id = Some p -> profile_ok p.

(** The condition of the rule of [_check_and_award_badges] that carries a
    given badge name, read on a stored profile. *)
Definition threshold_met (p : profile) (name : string) : bool :=
  if String.eqb name "Century" then 100 <=? total_points p
  else if String.eqb name "Champion" then 500 <=? total_points p
  else if String.eqb name "Legend" then 1000 <=? total_points p
  else if String.eqb name "Week Warrior" then 7 <=? current_streak p
  else if String.eqb name "Month Master" then 30 <=? current_streak p
  else if String.eqb name "Rising Star" then 5 <=? level p
  else if String.eqb name "Superstar" then 10 <=? level p
  else false.

(** The points that a run of calls gives to one student. *)
Definition points_for (student_id : Z) (cs : list call) : Z :=
  fold_right Z.add 0
    (map call_points (filter (fun c => call_student_id c = student_id) cs)).

Definition total_of (db : Db) (student_id : Z) : option Z :=
  total_points <$> student_gamification db !! student_id.

Definition notifications_of_user (db : Db) (user : Z) : list notification :=
  filter (fun n => user_id n = user) (notifications db).

End LedgerInvariants.

Export LedgerInvariants.

(** ** What a pattern matches

    The spans of a text that a pattern matches, without the order in which
    the matcher tries them: [matches s r i j] when [r] matches the
    characters of [s] from position [i] up to position [j]. *)

Module RegexSemantics.

Inductive matches (s : text) : re -> nat -> nat -> Prop :=
  | M_eps i : matches s Eps i i
  | M_chr p i c : s !! i = Some c -> p c = true -> matches s (Chr p) i (S i)
  | M_seq r1 r2 i j l :
      matches s r1 i j -> matches s r2 j l -> matches s (Seq r1 r2) i l
  | M_alt_l r1 r2 i j : matches s r1 i j -> matches s (Alt r1 r2) i j
  | M_alt_r r1 r2 i j : matches s r2 i j -> matches s (Alt r1 r2) i j
  | M_star_stop greedy r i : matches s (Star greedy r) i i
  | M_star_more greedy r i j l :
      matches s r i j -> (i < j)%nat -> matches s (Star greedy r) j l ->
      matches s (Star greedy r) i l
  | M_bos : matches s Bos 0 0
  | M_eol i : at_eol s i = true -> matches s Eol i i
  | M_eos : matches s Eos (length s) (length s)
  | M_wordb i : boundary s i = true -> matches s WordB i i
  | M_look r i j : matches s r i j -> matches s (Look r) i i
  | M_grp r i j : matches s r i j -> matches s (Grp r) i j.

(** A property of spans that every group of a pattern guarantees. *)
Fixpoint groups_sat (s : text) (P : nat -> nat -> Prop) (r : re) : Prop :=
  match r with
  | Grp r1 => (forall a b, matches s r1 a b -> P a b) /\ groups_sat s P r1
  | Seq r1 r2 | Alt r1 r2 => groups_sat s P r1 /\ groups_sat s P r2
  | Star _ r1 | Look r1 => groups_sat s P r1
  | _ => True
  end.

Definition cap_sat (P : nat -> nat -> Prop) (g : cap) : Prop :=
  match g with Some (a, b) => P a b | None => True end.

End RegexSemantics.

Export RegexSemantics.

(** ** What a pattern without anchors matches, as a set of texts *)

Module RegexLanguage.

Inductive lmatch : re -> text -> Prop :=
  | L_eps : lmatch Eps []
  | L_chr p c : p c = true -> lmatch (Chr p) [c]
  | L_seq r1 r2 u v : lmatch r1 u -> lmatch r2 v -> lmatch (Seq r1 r2) (u ++ v)
  | L_alt_l r1 r2 u : lmatch r1 u -> lmatch (Alt r1 r2) u
  | L_alt_r r1 r2 u : lmatch r2 u -> lmatch (Alt r1 r2) u
  | L_star_stop greedy r : lmatch (Star greedy r) []
  | L_star_more greedy r u v :
      lmatch r u -> u <> [] -> lmatch (Star greedy r) v ->
      lmatch (Star greedy r) (u ++ v)
  | L_grp r u : lmatch r u -> lmatch (Grp r) u.

(** Patterns made of classes, sequences, alternatives, stars and groups. *)
Fixpoint pure (r : re) : bool :=
  match r with
  | Eps | Chr _ => true
  | Seq r1 r2 | Alt r1 r2 => pure r1 && pure r2
  | Star _ r1 | Grp r1 => pure r1
  | Bos | Eol | Eos | WordB | Look _ => false
  end.

End RegexLanguage.

Export RegexLanguage.

(** ** The form checks of the sign-up page (src/app.py) *)

Module AppHelpers.

(** [[a-zA-Z0-9._%+-]] *)
Definition email_local (c : ascii) : bool :=
  is_alpha c || is_digit c || existsb (Ascii.eqb c) (of_string "._%+-").

(** [[a-zA-Z0-9.-]] *)
Definition email_domain (c : ascii) : bool :=
  is_alpha c || is_digit c || existsb (Ascii.eqb c) (of_string ".-").

(** [r'^[a-zA-Z0-9._%+-]+@[a-zA-Z0-9.-]+\.[a-zA-Z]{2,}$'] *)
Definition email_pattern : re :=
  cat [Bos; plus (Chr email_local); lit "@"; plus (Chr email_domain); lit ".";
       Chr is_alpha; Chr is_alpha; star (Chr is_alpha); Eol].

(** The pattern between its two anchors. *)
Definition email_body : list re :=
  [plus (Chr email_local); lit "@"; plus (Chr email_domain); lit ".";
   Chr is_alpha; Chr is_alpha; star (Chr is_alpha)].

(** [re.match(pattern, email) is not None] *)
Definition validate_email (email : string) : bool :=
  is_some (re_match email_pattern (of_string email)).

Definition validate_password (password : string) : bool * string :=
  let s := of_string password in
  if (len s <? 8)%nat then
    (false, "Password must be at least 8 characters long")
  else if negb (is_some (re_search (Chr is_upper) s)) then
    (false, "Password must contain at least one uppercase letter")
  else if negb (is_some (re_search (Chr is_lower) s)) then
    (false, "Password must contain at least one lowercase letter")
  else if negb (is_some (re_search (Chr is_digit) s)) then
    (false, "Password must contain at least one number")
  else (true, "Password is strong").

End AppHelpers.

Export AppHelpers.

(** ** Practice results, curricula and quiz marking

    The tables [user_details], [student_progress] and [curriculum] beside
    the ledger.  [student_progress] is a list of rows in table order: the
    code reads the first row of a student, subject and topic and updates
    that row through its [id]. *)

Module School.

(** A row of [user_details], with the columns that [create_user] fills. *)
Record user : Type := User {
  user_full_name : string;
  user_email : string;
  user_password_hash : string;
  user_role : string;
  user_class : option string;
  user_parent_id : option Z
}.

(** A row of [student_progress], with the columns that
    [save_practice_result] sets from its arguments ([id] and [updated_at]
    are set by the store). *)
Record progress_row : Type := Progress {
  progress_student_id : Z;
  progress_class : option string;
  progress_subject : string;
  progress_topic : string;
  attempts : Z;
  correct_attempts : Z;
  last_feedback : string
}.

Record App : Type := MkApp {
  ledger : Db;
  user_details : gmap Z user;
  student_progress : list progress_row;
  curriculum : gmap (string * string) string
}.

(** [WHERE student_id = %s AND subject = %s AND topic = %s] *)
Definition same_topic (student_id : Z) (subject topic : string) (r : progress_row) : bool :=
  (progress_student_id r =? student_id)
  && String.eqb (progress_subject r) subject
  && String.eqb (progress_topic r) topic.

(** [UPDATE ... WHERE id = %s] for the [id] of the first row found. *)
Fixpoint update_first (found : progress_row -> bool) (f : progress_row -> progress_row)
    (rows : list progress_row) : list progress_row :=
  match rows with
  | [] => []
  | r :: rs => if found r then f r :: rs else r :: update_first found f rs
  end.

(** [evaluate_answer] (src/models_utils.py) from what the model call
    returned: [None] when the call failed, so that [feedback.lower()]
    raises and the [except] branch answers. *)
Definition evaluate_answer (response : option string) : string * bool :=
  match response with
  | Some feedback => (feedback, ModelsUtils.is_correct feedback)
  | None => ("Unable to evaluate answer.", false)
  end.

(** [save_practice_result] (src/database.py). *)
Definition save_practice_result (today : Z) (app : App) (student_id : Z)
    (subject topic question answer feedback : string) : bool * App :=
  let is_correct := PracticeResult.is_correct feedback in
  let student_progress' :=
    match find (same_topic student_id subject topic) (student_progress app) with
    | Some result =>
        update_first (same_topic student_id subject topic)
          (fun r =>
             Progress (progress_student_id r) (progress_class r)
               (progress_subject r) (progress_topic r)
               (attempts r + 1)
               (correct_attempts r + (if is_correct then 1 else 0))
               feedback)
          (student_progress app)
    | None =>
        let student_class :=
          match user_details app !! student_id with
          | Some class_result => user_class class_result
          | None => Some "Unknown"
          end in
        student_progress app
        ++ [Progress student_id student_class subject topic
              1 (if is_correct then 1 else 0) feedback]
    end in
  let points := if is_correct then 5 else 2 in
  let ledger' :=
    snd (add_points today (ledger app) student_id points ("Practice: " +:+ topic)) in
  (true, MkApp ledger' (user_details app) student_progress' (curriculum app)).

(** The row of a student, subject and topic that the code would read. *)
Definition progress_of (app : App) (student_id : Z) (subject topic : string)
    : option progress_row :=
  find (same_topic student_id subject topic) (student_progress app).

Definition progress_key (r : progress_row) : Z * string * string :=
  (progress_student_id r, progress_subject r, progress_topic r).

Definition row_ok (r : progress_row) : Prop :=
  0 <= correct_attempts r <= attempts r.

(** *** Curricula *)

(** [INSERT ... ON CONFLICT (class, subject) DO UPDATE SET curriculum = ...] *)
Definition save_curriculum (app : App) (class_name subject curriculum_text : string)
    : bool * App :=
  (true, MkApp (ledger app) (user_details app) (student_progress app)
               (<[(class_name, subject) := curriculum_text]> (curriculum app))).

Definition get_curriculum (app : App) (class_name subject : string) : option string :=
  curriculum app !! (class_name, subject).

Definition add_subject_for_class (app : App) (class_name subject : string)
    : (bool * string) * App :=
  let exists_ :=
    match curriculum app !! (class_name, subject) with
    | Some _ => true
    | None => false
    end in
  if negb exists_ then
    ((true, "Subject added successfully!"),
     MkApp (ledger app) (user_details app) (student_progress app)
       (<[(class_name, subject) :=
            "Curriculum pending - Please contact your teacher to add content."]>
          (curriculum app)))
  else ((false, "This subject already exists for your class."), app).

End School.

Export School.

(** ** Automatic quiz marking (src/models_utils.py) *)

Module QuizMarking.

(** A question dictionary; a key may be missing. *)
Record question : Type := Question {
  q_type : option string;
  q_question : option string;
  q_correct_answer : option string;
  q_answer : option string;
  q_marks : option Z
}.

(** [str(i)] for a number that is not negative, and for an integer. *)
Definition str_nat (n : nat) : string :=
  DecimalString.NilZero.string_of_uint (Nat.to_uint n).
Definition str_Z (z : Z) : string :=
  DecimalString.NilZero.string_of_int (Z.to_int z).

(** [str.lower] on a string. *)
Definition lower_str (x : string) : string := to_string (lower (of_string x)).

(** ['\n'.join(feedback_list)] *)
Fixpoint join_lines (l : list string) : string :=
  match l with
  | [] => ""
  | [x] => x
  | x :: rest => x +:+ "
" +:+ join_lines rest
  end.

(** [q.get('correct_answer', q.get('answer', ''))] and [q.get('marks', 1)] *)
Definition correct_answer_of (q : question) : string :=
  match q_correct_answer q with
  | Some a => a
  | None => match q_answer q with Some a => a | None => "" end
  end.
Definition marks_of (q : question) : Z :=
  match q_marks q with Some m => m | None => 1 end.

(** The loop of [auto_evaluate_quiz] from question [i] on; [None] is a
    [KeyError] ([q['type']] or [q['question']] without the key).
    [responses i] is what the model call made for question [i] returned. *)
Fixpoint mark_from (responses : nat -> option string)
    (student_answers : gmap string string) (i : nat) (questions : list question)
    (total_score : Z) (feedback_list : list string) : option (Z * list string) :=
  match questions with
  | [] => Some (total_score, feedback_list)
  | q :: rest =>
      let student_ans :=
        match student_answers !! str_nat i with Some a => a | None => "" end in
      let correct_ans := correct_answer_of q in
      let marks := marks_of q in
      match q_type q with
      | None => None
      | Some type =>
          if String.eqb type "mcq" then
            if String.eqb (lower_str student_ans) (lower_str correct_ans) then
              mark_from responses student_answers (S i) rest (total_score + marks)
                (feedback_list ++
                   ["Q" +:+ str_nat (i + 1) +:+ ": Correct! (" +:+ str_Z marks +:+ "/"
                      +:+ str_Z marks +:+ ")"])
            else
              mark_from responses student_answers (S i) rest total_score
                (feedback_list ++
                   ["Q" +:+ str_nat (i + 1) +:+ ": Incorrect. Correct answer: "
                      +:+ correct_ans +:+ " (0/" +:+ str_Z marks +:+ ")"])
          else
            match q_question q with
            | None => None
            | Some _ =>
                let result := evaluate_answer (responses i) in
                if snd result then
                  mark_from responses student_answers (S i) rest (total_score + marks)
                    (feedback_list ++
                       ["Q" +:+ str_nat (i + 1) +:+ ": " +:+ fst result +:+ " ("
                          +:+ str_Z marks +:+ "/" +:+ str_Z marks +:+ ")"])
                else
                  let partial := marks / 2 in
                  mark_from responses student_answers (S i) rest (total_score + partial)
                    (feedback_list ++
                       ["Q" +:+ str_nat (i + 1) +:+ ": " +:+ fst result +:+ " ("
                          +:+ str_Z partial +:+ "/" +:+ str_Z marks +:+ ")"])
            end
      end
  end.

(** [auto_evaluate_quiz]: the score and the feedback text. *)
Definition auto_evaluate_quiz (responses : nat -> option string)
    (questions : list question) (student_answers : gmap string string) : Z * string :=
  match mark_from responses student_answers 0 questions 0 [] with
  | Some (total_score, feedback_list) => (total_score, join_lines feedback_list)
  | None => (0, "Evaluation failed")
  end.

Definition is_mcq (q : question) : bool :=
  match q_type q with Some type => String.eqb type "mcq" | None => false end.

(** A question that the loop can mark: it has a type, and a text when it
    is not multiple choice. *)
Definition markable (q : question) : bool :=
  match q_type q with
  | Some type => String.eqb type "mcq" || is_some (q_question q)
  | None => false
  end.

Definition total_marks (questions : list question) : Z :=
  fold_right Z.add 0 (map marks_of questions).

(** Half the marks, rounded down, of the questions that are not multiple
    choice. *)
Definition partial_credit (questions : list question) : Z :=
  fold_right Z.add 0
    (map (fun q => if is_mcq q then 0 else marks_of q / 2) questions).

End QuizMarking.

Export QuizMarking.

(** ** Invariants of the practice table *)

Module SchoolInvariants.

(** Counters in range, and one row for a student, subject and topic. *)
Definition progress_table_ok (app : App) : Prop :=
  Forall row_ok (student_progress app) /\
  NoDup (map progress_key (student_progress app)).

End SchoolInvariants.

Export SchoolInvariants.

(** ** Daily activity *)

Module Daily.

(** One [add_points] call a day for a student, from [first_day] on, with
    the given points. *)
Fixpoint daily_calls (student_id first_day : Z) (points : list Z) : list call :=
  match points with
  | [] => []
  | p :: rest =>
      Call first_day student_id p "Practice" :: daily_calls student_id (first_day + 1) rest
  end.

End Daily.

Export Daily.

(** ** Answers of a quiz *)

Module QuizAnswers.

(** [student_answers.get(str(i), "")] *)
Definition answer_at (student_answers : gmap string string) (i : nat) : string :=
  match student_answers !! str_nat i with Some a => a | None => "" end.

End QuizAnswers.

Export QuizAnswers.

(** ** Sign-up (src/database.py) *)

Module SignUp.

(** The dictionary that the sign-up page passes to [create_user]. *)
Record user_data : Type := UserData {
  data_full_name : string;
  data_email : string;
  data_password_hash : string;
  data_role : string;
  data_class : option string;
  data_parent_id : option Z
}.

(** [create_user], for the [id] that the insertion returns. *)
Definition create_user (user_id : Z) (app : App) (data : user_data) : bool * App :=
  let row :=
    if String.eqb (data_role data) "teacher" then
      User (data_full_name data) (data_email data) (data_password_hash data)
           (data_role data) None None
    else
      User (data_full_name data) (data_email data) (data_password_hash data)
           (data_role data) (data_class data) (data_parent_id data) in
  let ledger' :=
    if String.eqb (data_role data) "student"
    then snd (_initialize_gamification (ledger app) user_id)
    else ledger app in
  (true, MkApp ledger' (<[user_id := row]> (user_details app))
               (student_progress app) (curriculum app)).

End SignUp.

Export SignUp.

(** ** The sign-up form (src/app.py) *)

Module SignUpPage.

(** The [errors] list of [signup_page] for the four fields of the form. *)
Definition signup_errors (full_name email password confirm_password : string)
    : list string :=
  (if is_empty (strip (of_string full_name))
   then ["Please enter your full name."] else []) ++
  (if negb (validate_email email) then ["Invalid email format."] else []) ++
  (if negb (fst (validate_password password))
   then [snd (validate_password password)] else []) ++
  (if negb (String.eqb password confirm_password)
   then ["Passwords do not match."] else []).

(** The [user_data] dictionary of [signup_page]; [hash_password] is the
    SHA-256 digest of the page, taken as it is. *)
Definition signup_user_data (hash_password : string -> string)
    (full_name email password role student_class : string) : user_data :=
  UserData (to_string (strip (of_string full_name)))
           (to_string (strip (lower (of_string email))))
           (hash_password password)
           role
           (Some student_class)
           None.

End SignUpPage.

Export SignUpPage.

(** ** Words of a verdict *)

Module Verdicts.

(** The words of the positive pattern of the classifier that may stand
    anywhere in the feedback ([^correct] can only stand at its start). *)
Definition praise_words : list string :=
  ["right"; "well done"; "excellent"; "perfect"; "great job"].

(** [w] stands in [s] as a word of its own: the character before it and
    the character after it, if any, are not word characters. *)
Definition whole_word (s w : text) : Prop :=
  exists pre post,
    s = pre ++ w ++ post /\
    (forall c, last pre = Some c -> is_word c = false) /\
    (forall c, head post = Some c -> is_word c = false).

End Verdicts.

Export Verdicts.

(** ** A class at work *)

Module Classroom.

(** Two students.  Student 7 was active yesterday (day 100) and is one
    call away from the "Century" and the "Week Warrior" badge; student 8
    holds both, with their notifications. *)
Definition two_students_db : Db :=
  MkDb {[ 7 := Profile 95 1 6 6 (Some 100); 8 := Profile 120 2 7 7 (Some 100) ]}
       [Badge 8 "Century" "Earned 100 points" "🏆";
        Badge 8 "Week Warrior" "7-day learning streak" "🔥"]
       [Notification 8 "New Badge Earned!"
          "Congratulations! You earned the 'Century' badge: Earned 100 points"
          "achievement";
        Notification 8 "New Badge Earned!"
          "Congratulations! You earned the 'Week Warrior' badge: 7-day learning streak"
          "achievement"].

(** A day of calls on which student 8 meets the two thresholds again and
    student 7 meets them for the first time. *)
Definition busy_day : list call :=
  [Call 101 8 5 "Practice: Fractions"; Call 101 7 10 "Quiz Excellence (90%+)";
   Call 101 8 2 "Practice: Decimals"; Call 102 7 2 "Practice: Decimals"].

(** The practice of the two students so far. *)
Definition practised : list progress_row :=
  [Progress 7 (Some "Grade 5") "Maths" "Fractions" 4 3 "CORRECT";
   Progress 7 (Some "Grade 5") "Maths" "Decimals" 2 0 "INCORRECT";
   Progress 8 (Some "Grade 5") "Maths" "Fractions" 1 1 "CORRECT"].

Definition classroom : App :=
  MkApp two_students_db
        {[ 7 := User "Sam Lee" "sam.lee@school-mail.org" "" "student" (Some "Grade 5") None;
           8 := User "Ada Roy" "ada.roy@school-mail.org" "" "student" (Some "Grade 5") None ]}
        practised
        {[ ("Grade 5", "Science") := "Cells; plants";
           ("Grade 6", "Maths") := "Ratios" ]}.

End Classroom.

Export Classroom.

(** * Properties *)

(** ** The ledger *)

Section LedgerFacts.

Implicit Types (db : Db) (p : profile) (entry : string * string * string).

Lemma awards_gamification student_id l db :
  student_gamification (fold_left (award student_id) l db) = student_gamification db.
Proof.
  revert db. induction l as [|[[n d] i] l IH]; intros db; simpl; [done|].
  by rewrite IH.
Qed.

Lemma awards_badges student_id l db :
  badges (fold_left (award student_id) l db) = badges db ++ map (badge_of student_id) l.
Proof.
  revert db. induction l as [|[[n d] i] l IH]; intros db; simpl.
  - by rewrite app_nil_r.
  - rewrite IH. simpl. by rewrite <- app_assoc.
Qed.

Lemma awards_notifications student_id l db :
  notifications (fold_left (award student_id) l db)
  = notifications db ++ map (notification_of student_id) l.
Proof.
  revert db. induction l as [|[[n d] i] l IH]; intros db; simpl.
  - by rewrite app_nil_r.
  - rewrite IH. simpl. by rewrite <- app_assoc.
Qed.

Lemma check_gamification db student_id new_points streak :
  student_gamification (_check_and_award_badges db student_id new_points streak)
  = student_gamification db.
Proof.
  unfold _check_and_award_badges.
  destruct (student_gamification db !! student_id); [|done].
  apply awards_gamification.
Qed.

Lemma add_points_returns today db student_id points reason :
  fst (add_points today db student_id points reason) = true.
Proof. unfold add_points. by destruct (student_gamification db !! student_id). Qed.

Lemma add_points_absent today db student_id points reason :
  student_gamification db !! student_id = None ->
  add_points today db student_id points reason = (true, db).
Proof. intros H. unfold add_points. by rewrite H. Qed.

(** The row that [add_points] leaves for a student who had one. *)
Lemma add_points_row today db student_id points reason p :
  student_gamification db !! student_id = Some p ->
  student_gamification (snd (add_points today db student_id points reason)) !! student_id
  = Some (update_row p points
            (new_streak today (last_activity_date p) (current_streak p))
            (Z.max (longest_streak p)
               (new_streak today (last_activity_date p) (current_streak p)))
            today).
Proof.
  intros H. unfold add_points. rewrite H. simpl.
  rewrite check_gamification. simpl. by rewrite lookup_insert_eq.
Qed.

(** The rows of other students are not touched. *)
Lemma add_points_other today db student_id points reason other :
  other <> student_id ->
  student_gamification (snd (add_points today db student_id points reason)) !! other
  = student_gamification db !! other.
Proof.
  intros Hne. unfold add_points.
  destruct (student_gamification db !! student_id); [|done]. simpl.
  rewrite check_gamification. simpl. by rewrite lookup_insert_ne.
Qed.

Lemma has_badge_badges db1 db2 student_id name :
  badges db1 = badges db2 ->
  _has_badge db1 student_id name = _has_badge db2 student_id name.
Proof. unfold _has_badge. by intros ->. Qed.

Lemma has_badge_app db student_id name bs student_gamification' notifications' :
  _has_badge db student_id name = true ->
  _has_badge (MkDb student_gamification' (badges db ++ bs) notifications') student_id name
  = true.
Proof. unfold _has_badge. simpl. intros H. rewrite existsb_app, H. done. Qed.

(** An entry is put on [badges_to_award] only for a badge not yet held. *)
Lemma rule_not_held db student_id met entry e :
  In e (rule db student_id met entry) ->
  _has_badge db student_id (fst (fst e)) = false.
Proof.
  unfold rule. destruct met; simpl; [|tauto].
  destruct (_has_badge db student_id (fst (fst entry))) eqn:E; simpl; [tauto|].
  intros [<-|[]]. exact E.
Qed.

(** The badge rows after the evaluation: the old rows, then one row per
    entry, every entry being for a badge that was not held. *)
Lemma rule_sublist db student_id met entry :
  sublist (rule db student_id met entry) [entry].
Proof.
  unfold rule. destruct (met && _); [done|apply sublist_nil_l].
Qed.

Lemma check_badges db student_id new_points streak :
  exists l,
    badges (_check_and_award_badges db student_id new_points streak)
    = badges db ++ map (badge_of student_id) l /\
    notifications (_check_and_award_badges db student_id new_points streak)
    = notifications db ++ map (notification_of student_id) l /\
    (forall e, In e l -> _has_badge db student_id (fst (fst e)) = false) /\
    sublist l catalog.
Proof.
  unfold _check_and_award_badges.
  destruct (student_gamification db !! student_id) as [result|].
  - eexists. split; [apply awards_badges|]. split; [apply awards_notifications|].
    split.
    + intros e He. repeat (apply in_app_or in He; destruct He as [He|He]);
        eapply rule_not_held; eassumption.
    + change catalog with ([("Century", "Earned 100 points", "🏆")] ++
        [("Champion", "Earned 500 points", "🏅")] ++
        [("Legend", "Earned 1000 points", "👑")] ++
        [("Week Warrior", "7-day learning streak", "🔥")] ++
        [("Month Master", "30-day learning streak", "⭐")] ++
        [("Rising Star", "Reached Level 5", "🌟")] ++
        [("Superstar", "Reached Level 10", "💫")]).
      repeat (apply sublist_app; [apply rule_sublist|]). apply rule_sublist.
  - exists []. simpl. rewrite !app_nil_r. repeat split; [done|apply sublist_nil_l].
Qed.

Lemma add_points_badges today db student_id points reason :
  exists l,
    badges (snd (add_points today db student_id points reason))
    = badges db ++ map (badge_of student_id) l /\
    notifications (snd (add_points today db student_id points reason))
    = notifications db ++ map (notification_of student_id) l /\
    (forall e, In e l -> _has_badge db student_id (fst (fst e)) = false) /\
    sublist l catalog.
Proof.
  unfold add_points.
  destruct (student_gamification db !! student_id) as [result|]; simpl.
  - match goal with |- context [_check_and_award_badges ?d ?a ?b ?c] =>
      destruct (check_badges d a b c) as (l & Hb & Hn & Hl & Hsub) end.
    exists l. rewrite Hb, Hn. simpl. repeat split; [|done].
    intros e He. rewrite <- (Hl e He). by apply has_badge_badges.
  - exists []. simpl. rewrite !app_nil_r. repeat split; [done|apply sublist_nil_l].
Qed.

Lemma filter_rows_none (P : badge -> Prop) `{!forall b, Decision (P b)}
    (f : string * string * string -> badge) l :
  (forall e, In e l -> ~ P (f e)) -> filter P (map f l) = [].
Proof.
  induction l as [|e l IH]; intros Hall; simpl; [done|].
  rewrite filter_cons_False by (apply Hall; by left).
  apply IH. intros e' He'. apply Hall. by right.
Qed.

(** A call inserts no row for a badge that the student holds, and the
    badge stays held. *)
Lemma do_call_held db c student_id name :
  _has_badge db student_id name = true ->
  badge_rows (do_call db c) student_id name = badge_rows db student_id name /\
  _has_badge (do_call db c) student_id name = true.
Proof.
  intros Hheld. unfold do_call, badge_rows.
  destruct (add_points_badges (call_today c) db (call_student_id c)
              (call_points c) (call_reason c)) as (l & Hb & _ & Hl & _).
  split.
  - rewrite Hb, filter_app, filter_rows_none; [by rewrite app_nil_r|].
    intros e He [Hs Hn]. simpl in Hs, Hn. subst.
    rewrite (Hl e He) in Hheld. discriminate.
  - unfold _has_badge in *. rewrite Hb, existsb_app, Hheld. done.
Qed.

Lemma catalog_names_distinct : NoDup (map (fun e => fst (fst e)) catalog).
Proof. apply (bool_decide_unpack _). by vm_compute. Qed.

Lemma not_held_no_rows db student_id name :
  _has_badge db student_id name = false -> badge_rows db student_id name = [].
Proof.
  unfold _has_badge, badge_rows. induction (badges db) as [|b bs IH]; simpl; [done|].
  intros H. apply orb_false_iff in H as [Hb Hbs].
  rewrite filter_cons_False; [by apply IH|].
  intros [Hs Hn]. apply andb_false_iff in Hb as [Hb|Hb].
  - apply Z.eqb_neq in Hb. done.
  - apply String.eqb_neq in Hb. done.
Qed.

(** Entries with distinct names give at most one row for a name. *)
Lemma distinct_names_one_row student_id student_id' name
    (l : list (string * string * string)) :
  NoDup (map (fun e => fst (fst e)) l) ->
  (length (filter (fun b => badge_student_id b = student_id /\ badge_name b = name)
             (map (badge_of student_id') l)) <= 1)%nat.
Proof.
  induction l as [|e l IH]; simpl; [lia|]. intros Hnd.
  apply NoDup_cons in Hnd as [Hnotin Hnd].
  destruct (decide (badge_student_id (badge_of student_id' e) = student_id /\
                    badge_name (badge_of student_id' e) = name)) as [[Hs Hn]|Hno].
  - rewrite filter_cons_True by done. rewrite filter_rows_none; [simpl; lia|].
    intros e' He' [_ Hn']. simpl in Hn, Hn'. apply Hnotin.
    rewrite Hn, <- Hn'.
    apply list_elem_of_In, (in_map (fun e0 : string * string * string => fst (fst e0))), He'.
  - rewrite filter_cons_False by done. by apply IH.
Qed.

(** The table invariant is kept by every call, hence by every run. *)
Lemma do_call_unique db c : badges_unique db -> badges_unique (do_call db c).
Proof.
  intros Hu student_id name.
  destruct (_has_badge db student_id name) eqn:Hheld.
  - destruct (do_call_held db c student_id name Hheld) as [-> _]. apply Hu.
  - unfold do_call, badge_rows.
    destruct (add_points_badges (call_today c) db (call_student_id c)
                (call_points c) (call_reason c)) as (l & Hb & _ & _ & Hsub).
    rewrite Hb, filter_app.
    fold (badge_rows db student_id name). rewrite (not_held_no_rows _ _ _ Hheld).
    simpl. apply distinct_names_one_row.
    eapply sublist_NoDup; [apply catalog_names_distinct|].
    clear -Hsub. induction Hsub; simpl; by constructor.
Qed.

Theorem run_unique db cs : badges_unique db -> badges_unique (run db cs).
Proof.
  revert db. induction cs as [|c cs IH]; intros db Hu; simpl; [done|].
  apply IH, do_call_unique, Hu.
Qed.

End LedgerFacts.

(** ** The claims about the ledger *)

Section LedgerClaims.

Variables (today : Z) (db : Db) (student_id : Z).

(** C1 (as amended).  A student whose profile holds totalPoints=95,
    currentStreak=6, level=1 and a last activity dated yesterday, and who
    holds neither the "Century" nor the "Week Warrior" badge yet: one call
    [add_points(student_id, 10, "quiz")] leaves the profile with
    totalPoints=105, level=2, currentStreak=7, inserts exactly the two badge
    rows "Century" and "Week Warrior" and exactly two notification rows. *)
Theorem C1_scenario_two_badges (longest : Z) :
  student_gamification db !! student_id
    = Some (Profile 95 1 6 longest (Some (today - 1))) ->
  _has_badge db student_id "Century" = false ->
  _has_badge db student_id "Week Warrior" = false ->
  let db' := snd (add_points today db student_id 10 "quiz") in
  student_gamification db' !! student_id
    = Some (Profile 105 2 7 (Z.max longest 7) (Some today)) /\
  badges db'
    = badges db
      ++ [Badge student_id "Century" "Earned 100 points" "🏆";
          Badge student_id "Week Warrior" "7-day learning streak" "🔥"] /\
  notifications db'
    = notifications db
      ++ [Notification student_id "New Badge Earned!"
            "Congratulations! You earned the 'Century' badge: Earned 100 points"
            "achievement";
          Notification student_id "New Badge Earned!"
            "Congratulations! You earned the 'Week Warrior' badge: 7-day learning streak"
            "achievement"].
Proof.
  intros Hrow Hc Hw db'. split.
  - subst db'. rewrite (add_points_row _ _ _ _ _ _ Hrow). simpl.
    unfold new_streak. replace (today - (today - 1)) with 1 by lia. reflexivity.
  - subst db'. unfold add_points. rewrite Hrow. simpl.
    unfold new_streak. replace (today - (today - 1)) with 1 by lia. simpl.
    unfold _check_and_award_badges. simpl. rewrite lookup_insert_eq. simpl.
    unfold rule, _has_badge in *. simpl in *. rewrite Hc, Hw. simpl.
    rewrite <- !app_assoc. split; reflexivity.
Qed.

(** C2 (as amended).  [add_points] has no check on [points]: for every
    points value that is zero or negative the call is accepted like any
    other (it returns [True]); when the student has a profile the ledger is
    updated as for a positive value (the points are added to totalPoints,
    which goes down for a negative value, the level is recomputed, the
    streak and lastActivityDate are brought up to date); when the student
    has no profile the store is left as it was. *)
Theorem C2_nonpositive_points_applied (points : Z) (reason : string) :
  points <= 0 ->
  fst (add_points today db student_id points reason) = true /\
  match student_gamification db !! student_id with
  | Some p =>
      student_gamification (snd (add_points today db student_id points reason))
        !! student_id
      = Some (Profile (total_points p + points)
                      ((total_points p + points) ÷ 100 + 1)
                      (new_streak today (last_activity_date p) (current_streak p))
                      (Z.max (longest_streak p)
                         (new_streak today (last_activity_date p) (current_streak p)))
                      (Some today))
  | None => snd (add_points today db student_id points reason) = db
  end.
Proof.
  intros _. split; [apply add_points_returns|].
  destruct (student_gamification db !! student_id) as [p|] eqn:E.
  - by rewrite (add_points_row _ _ _ _ _ _ E).
  - by rewrite add_points_absent.
Qed.

(** C3 (as amended).  For a student with no gamification profile,
    [add_points] creates nothing and awards nothing: the store is left as
    it was and the call returns [True].  The profile is created by
    [_initialize_gamification], with the zero defaults; the first
    [add_points] call after that applies the award, and the student ends
    with a persisted profile that reflects it. *)
Theorem C3_no_profile_no_award (points : Z) (reason : string) :
  student_gamification db !! student_id = None ->
  add_points today db student_id points reason = (true, db) /\
  let db0 := snd (_initialize_gamification db student_id) in
  student_gamification db0 !! student_id = Some default_profile /\
  student_gamification (snd (add_points today db0 student_id points reason)) !! student_id
  = Some (Profile points (points ÷ 100 + 1) 1 1 (Some today)).
Proof.
  intros Hnone. split; [by apply add_points_absent|].
  unfold _initialize_gamification. rewrite Hnone. simpl.
  set (db0 := MkDb _ _ _).
  assert (Hrow : student_gamification db0 !! student_id = Some default_profile)
    by apply lookup_insert_eq.
  split; [exact Hrow|].
  rewrite (add_points_row today db0 student_id points reason default_profile Hrow).
  reflexivity.
Qed.

(** C4 (as amended).  For every profile whose lastActivityDate is strictly
    later than today, the streak computation of [add_points] leaves
    currentStreak as it was: a negative difference of days is neither 1 nor
    greater than 1, and is handled like a call on the same day. *)
Theorem C4_future_date_keeps_streak (points : Z) (reason : string) (p : profile) (last : Z) :
  student_gamification db !! student_id = Some p ->
  last_activity_date p = Some last ->
  today < last ->
  streak_of (snd (add_points today db student_id points reason)) student_id
  = Some (current_streak p).
Proof.
  intros Hrow Hlast Hlt. unfold streak_of.
  rewrite (add_points_row _ _ _ _ _ _ Hrow), Hlast. simpl. f_equal.
  destruct (Z.eqb_spec (today - last) 1); [lia|].
  destruct (Z.ltb_spec 1 (today - last)); [lia|]. reflexivity.
Qed.

(** C6.  After an [add_points] call on an existing profile the stored
    level is floor(totalPoints / 100) + 1 for the total after the update,
    whenever that total is not negative. *)
Theorem C6_level_of_total (points : Z) (reason : string) (p : profile) :
  student_gamification db !! student_id = Some p ->
  0 <= total_points p + points ->
  exists p',
    student_gamification (snd (add_points today db student_id points reason)) !! student_id
    = Some p' /\
    total_points p' = total_points p + points /\
    level p' = total_points p' / 100 + 1.
Proof.
  intros Hrow Hnn. eexists. split; [by apply add_points_row|]. simpl.
  split; [done|]. by rewrite Z.quot_div_nonneg by lia.
Qed.

End LedgerClaims.

(** C7.  On an existing profile: a second [add_points] call on the same
    calendar day leaves currentStreak as the first call left it; and, for a
    profile with a last activity date, a call on that same day leaves
    currentStreak unchanged, a call exactly one day later increments it by
    exactly 1, and a call five days later resets it to 1. *)
Theorem C7_streak_by_day (db : Db) (student_id : Z) (p : profile)
    (points points2 : Z) (reason reason2 : string) :
  student_gamification db !! student_id = Some p ->
  (forall today,
     let db1 := snd (add_points today db student_id points reason) in
     streak_of (snd (add_points today db1 student_id points2 reason2)) student_id
     = streak_of db1 student_id) /\
  (forall last,
     last_activity_date p = Some last ->
     streak_of (snd (add_points last db student_id points reason)) student_id
       = Some (current_streak p) /\
     streak_of (snd (add_points (last + 1) db student_id points reason)) student_id
       = Some (current_streak p + 1) /\
     streak_of (snd (add_points (last + 5) db student_id points reason)) student_id
       = Some 1).
Proof.
  intros Hrow. split; [|intros last Hlast; repeat split].
  - intros today db1. subst db1. unfold streak_of at 1.
    pose proof (add_points_row today db student_id points reason p Hrow) as H1.
    rewrite (add_points_row _ _ _ _ _ _ H1). unfold streak_of. rewrite H1. simpl.
    rewrite Z.sub_diag. reflexivity.
  - unfold streak_of. rewrite (add_points_row _ _ _ _ _ _ Hrow), Hlast. simpl.
    rewrite Z.sub_diag. reflexivity.
  - unfold streak_of. rewrite (add_points_row _ _ _ _ _ _ Hrow), Hlast. simpl.
    replace (last + 1 - last) with 1 by lia. reflexivity.
  - unfold streak_of. rewrite (add_points_row _ _ _ _ _ _ Hrow), Hlast. simpl.
    replace (last + 5 - last) with 5 by lia. reflexivity.
Qed.

(** C8.  Once a badge with a given name is recorded for a student, no later
    [add_points] call, for any student, with any points and on any day,
    inserts another row with that name for that student: the rows with that
    student and name stay exactly the ones there were.  The attempt is
    silent: every such call returns [True]. *)
Theorem C8_badge_recorded_once (db : Db) (student_id : Z) (name : string) (cs : list call) :
  _has_badge db student_id name = true ->
  badge_rows (run db cs) student_id name = badge_rows db student_id name /\
  _has_badge (run db cs) student_id name = true /\
  forall today student_id' points reason,
    fst (add_points today (run db cs) student_id' points reason) = true.
Proof.
  intros Hheld.
  assert (badge_rows (run db cs) student_id name = badge_rows db student_id name /\
          _has_badge (run db cs) student_id name = true) as [Hrows Hstill].
  { revert db Hheld. induction cs as [|c cs IH]; intros db Hheld; simpl; [done|].
    destruct (do_call_held db c student_id name Hheld) as [Hrows Hstill].
    destruct (IH _ Hstill) as [IH1 IH2]. split; [congruence|done]. }
  repeat split; [done..|]. intros. apply add_points_returns.
Qed.

(** Witnesses and counterexamples of the ledger claims. *)

Lemma C1_scenario_witness :
  let db' := snd (add_points 101 Scenario.newcomer_db 7 10 "quiz") in
  student_gamification db' !! 7 = Some (Profile 105 2 7 7 (Some 101)) /\
  length (badges db') = 2%nat /\ length (notifications db') = 2%nat.
Proof.
  destruct (C1_scenario_two_badges 101 Scenario.newcomer_db 7 6)
    as (Hp & Hb & Hn); [reflexivity..|].
  intros db'. subst db'. rewrite Hp, Hb, Hn. repeat split.
Defined.

(** C1, as stated, fails for a student who already holds "Week Warrior"
    from an earlier streak: with the same profile values only "Century" is
    awarded and one notification is inserted. *)
Lemma C1_week_warrior_already_held :
  student_gamification Scenario.veteran_db !! 7 = Some (Profile 95 1 6 7 (Some 16)) /\
  let db' := snd (add_points 17 Scenario.veteran_db 7 10 "quiz") in
  student_gamification db' !! 7 = Some (Profile 105 2 7 7 (Some 17)) /\
  badges db' = badges Scenario.veteran_db
               ++ [Badge 7 "Century" "Earned 100 points" "🏆"] /\
  length (notifications db') = S (length (notifications Scenario.veteran_db)).
Proof. vm_compute. repeat split. Qed.

Lemma C2_nonpositive_witness :
  fst (add_points 101 Scenario.newcomer_db 7 0 "quiz") = true /\
  student_gamification (snd (add_points 101 Scenario.newcomer_db 7 0 "quiz")) !! 7
  = Some (Profile 95 1 7 7 (Some 101)).
Proof.
  apply (C2_nonpositive_points_applied 101 Scenario.newcomer_db 7 0 "quiz"). lia.
Defined.

(** C2, as stated, fails: a call with -5 points is accepted and lowers the
    total from 95 to 90. *)
Lemma C2_negative_points_accepted :
  student_gamification Scenario.newcomer_db !! 7 = Some (Profile 95 1 6 6 (Some 100)) /\
  fst (add_points 101 Scenario.newcomer_db 7 (-5) "penalty") = true /\
  student_gamification (snd (add_points 101 Scenario.newcomer_db 7 (-5) "penalty")) !! 7
  = Some (Profile 90 1 7 7 (Some 101)).
Proof. vm_compute. repeat split. Qed.

Lemma C3_no_profile_witness :
  add_points 101 empty_db 7 10 "quiz" = (true, empty_db) /\
  let db0 := snd (_initialize_gamification empty_db 7) in
  student_gamification db0 !! 7 = Some default_profile /\
  student_gamification (snd (add_points 101 db0 7 10 "quiz")) !! 7
  = Some (Profile 10 1 1 1 (Some 101)).
Proof.
  apply (C3_no_profile_no_award 101 empty_db 7 10 "quiz"). reflexivity.
Defined.

(** C3, as stated, fails: after the first [add_points] call of a student
    without profile there is still no profile. *)
Lemma C3_first_call_creates_no_profile :
  student_gamification empty_db !! 7 = None /\
  fst (add_points 101 empty_db 7 10 "quiz") = true /\
  student_gamification (snd (add_points 101 empty_db 7 10 "quiz")) !! 7 = None.
Proof. vm_compute. repeat split. Qed.

Lemma C4_future_date_witness :
  streak_of (snd (add_points 100 Scenario.skewed_db 7 10 "quiz")) 7 = Some 5.
Proof.
  apply (C4_future_date_keeps_streak 100 Scenario.skewed_db 7 10 "quiz"
           (Profile 40 1 5 9 (Some 101)) 101); [reflexivity | reflexivity | lia].
Defined.

(** C4, as stated, fails: with a last activity dated tomorrow and a streak
    of 5, the streak after the call is 5, not 1. *)
Lemma C4_future_date_not_reset :
  student_gamification Scenario.skewed_db !! 7 = Some (Profile 40 1 5 9 (Some 101)) /\
  streak_of (snd (add_points 100 Scenario.skewed_db 7 10 "quiz")) 7 = Some 5 /\
  streak_of (snd (add_points 100 Scenario.skewed_db 7 10 "quiz")) 7 <> Some 1.
Proof. vm_compute. repeat split. discriminate. Qed.

Lemma C6_level_witness :
  exists p',
    student_gamification (snd (add_points 101 Scenario.newcomer_db 7 10 "quiz")) !! 7
    = Some p' /\
    total_points p' = 95 + 10 /\
    level p' = total_points p' / 100 + 1.
Proof.
  apply (C6_level_of_total 101 Scenario.newcomer_db 7 10 "quiz"
           (Profile 95 1 6 6 (Some 100))); [reflexivity | simpl; lia].
Defined.

Lemma C7_streak_witness :
  (forall today,
     let db1 := snd (add_points today Scenario.newcomer_db 7 5 "Practice: Fractions") in
     streak_of (snd (add_points today db1 7 2 "Practice: Decimals")) 7 = streak_of db1 7) /\
  streak_of (snd (add_points 100 Scenario.newcomer_db 7 5 "Practice: Fractions")) 7
    = Some 6 /\
  streak_of (snd (add_points (100 + 1) Scenario.newcomer_db 7 5 "Practice: Fractions")) 7
    = Some (6 + 1) /\
  streak_of (snd (add_points (100 + 5) Scenario.newcomer_db 7 5 "Practice: Fractions")) 7
    = Some 1.
Proof.
  destruct (C7_streak_by_day Scenario.newcomer_db 7 (Profile 95 1 6 6 (Some 100))
              5 2 "Practice: Fractions" "Practice: Decimals" eq_refl) as [Hsame Hdays].
  split; [exact Hsame|]. exact (Hdays 100 eq_refl).
Defined.

Lemma C8_badge_witness :
  let later := [Call 17 7 10 "quiz"; Call 18 7 20 "Quiz Completed"; Call 18 8 5 "Practice: x"] in
  badge_rows (run Scenario.veteran_db later) 7 "Week Warrior"
    = badge_rows Scenario.veteran_db 7 "Week Warrior" /\
  _has_badge (run Scenario.veteran_db later) 7 "Week Warrior" = true /\
  forall today student_id' points reason,
    fst (add_points today (run Scenario.veteran_db later) student_id' points reason) = true.
Proof.
  intros later.
  apply (C8_badge_recorded_once Scenario.veteran_db 7 "Week Warrior" later).
  vm_compute. reflexivity.
Defined.

(** ** The matcher *)

Section MatcherFacts.

Variable s : text.

Lemma star_loop_reaches (m : (nat -> cap -> outcome) -> nat -> cap -> outcome)
    (greedy : bool) (k : nat -> cap -> outcome) :
  (forall k' i g res,
     m k' i g = Some res ->
     exists j g', k' j g' = Some res /\ (is_some g = true -> is_some g' = true)) ->
  forall fuel i g res,
    star_loop m greedy k fuel i g = Some res ->
    exists j g', k j g' = Some res /\ (is_some g = true -> is_some g' = true).
Proof.
  intros Hm fuel. induction fuel as [|fuel IHf]; intros i g res; simpl; [eauto|].
  assert (Hagain :
    m (fun j g' => if (i <? j)%nat then star_loop m greedy k fuel j g' else None) i g
    = Some res ->
    exists j g', k j g' = Some res /\ (is_some g = true -> is_some g' = true)).
  { intros H. apply Hm in H as (j1 & g1 & H & Hg1).
    destruct (i <? j1)%nat; [|discriminate].
    apply IHf in H as (j2 & g2 & H & Hg2). exists j2, g2. auto. }
  destruct greedy.
  - destruct (m _ i g) eqn:E.
    + intros [= <-]. by apply Hagain.
    + eauto.
  - destruct (k i g) eqn:E.
    + intros [= <-]. eauto.
    + exact Hagain.
Qed.

(** A successful match has run its continuation; a group span that was
    there before is still there. *)
Lemma mt_reaches (r : re) :
  forall k i g res,
    mt s r k i g = Some res ->
    exists j g', k j g' = Some res /\ (is_some g = true -> is_some g' = true).
Proof.
  induction r as [ |p|r1 IH1 r2 IH2|r1 IH1 r2 IH2|greedy r1 IH1| | | | |r1 IH1|r1 IH1];
    intros k i g res;
    [simpl|simpl|simpl|simpl|idtac|simpl|simpl|simpl|simpl|simpl|simpl].
  - eauto.
  - destruct (s !! i) as [c|]; [|discriminate].
    destruct (p c); [eauto|discriminate].
  - intros H. apply IH1 in H as (j1 & g1 & H & Hg1).
    apply IH2 in H as (j2 & g2 & H & Hg2). exists j2, g2. auto.
  - destruct (mt s r1 k i g) eqn:E.
    + intros [= <-]. eauto.
    + eauto.
  - change (mt s (Star greedy r1) k i g)
      with (star_loop (mt s r1) greedy k (S (length s)) i g).
    apply star_loop_reaches. exact IH1.
  - destruct (i =? 0)%nat; [eauto|discriminate].
  - destruct (at_eol s i); [eauto|discriminate].
  - destruct (i =? length s)%nat; [eauto|discriminate].
  - destruct (boundary s i); [eauto|discriminate].
  - destruct (mt s r1 (fun j g' => Some (j, g')) i g) as [[j g1]|] eqn:E;
      [|discriminate].
    apply IH1 in E as (j2 & g2 & [= -> ->] & Hg2). intros H. exists i, g1. auto.
  - intros H. apply IH1 in H as (j1 & g1 & H & _). exists j1, (Some (i, j1)). auto.
Qed.

(** After a match of a pattern that goes through its group, the group has
    a span. *)
Lemma mt_sets_group (r : re) :
  sets_group r = true ->
  forall k i g res,
    mt s r k i g = Some res -> exists j g', k j g' = Some res /\ is_some g' = true.
Proof.
  induction r as [ |p|r1 IH1 r2 IH2|r1 IH1 r2 IH2|greedy r1 IH1| | | | |r1 IH1|r1 IH1];
    simpl; try discriminate; intros Hs k i g res H.
  - apply orb_true_iff in Hs as [Hs|Hs].
    + apply (IH1 Hs) in H as (j1 & g1 & H & Hg1).
      apply mt_reaches in H as (j2 & g2 & H & Hg2). exists j2, g2. auto.
    + apply mt_reaches in H as (j1 & g1 & H & _).
      apply (IH2 Hs) in H. exact H.
  - apply andb_true_iff in Hs as [Hs1 Hs2].
    destruct (mt s r1 k i g) eqn:E.
    + injection H as <-. eapply IH1; eauto.
    + eapply IH2; eauto.
  - apply mt_reaches in H as (j1 & g1 & H & _). exists j1, (Some (i, j1)). auto.
Qed.

(** The continuation is only run at positions of the text. *)
Lemma star_loop_ext (m : (nat -> cap -> outcome) -> nat -> cap -> outcome)
    (greedy : bool) (k1 k2 : nat -> cap -> outcome) :
  (forall k1' k2' i g,
     (i <= length s)%nat ->
     (forall j g', (j <= length s)%nat -> k1' j g' = k2' j g') ->
     m k1' i g = m k2' i g) ->
  (forall j g', (j <= length s)%nat -> k1 j g' = k2 j g') ->
  forall fuel i g,
    (i <= length s)%nat ->
    star_loop m greedy k1 fuel i g = star_loop m greedy k2 fuel i g.
Proof.
  intros Hm Hk fuel. induction fuel as [|fuel IHf]; intros i g Hi; simpl; [auto|].
  rewrite (Hk i g Hi).
  rewrite (Hm (fun j g' => if (i <? j)%nat then star_loop m greedy k1 fuel j g' else None)
              (fun j g' => if (i <? j)%nat then star_loop m greedy k2 fuel j g' else None)
              i g Hi); [done|].
  intros j g' Hj. destruct (i <? j)%nat; [auto|done].
Qed.

Lemma mt_ext (r : re) :
  forall k1 k2 i g,
    (i <= length s)%nat ->
    (forall j g', (j <= length s)%nat -> k1 j g' = k2 j g') ->
    mt s r k1 i g = mt s r k2 i g.
Proof.
  induction r as [ |p|r1 IH1 r2 IH2|r1 IH1 r2 IH2|greedy r1 IH1| | | | |r1 IH1|r1 IH1];
    intros k1 k2 i g Hi Hk;
    [simpl|simpl|simpl|simpl|idtac|simpl|simpl|simpl|simpl|simpl|simpl].
  - auto.
  - destruct (s !! i) as [c|] eqn:E; [|done].
    apply lookup_lt_Some in E. destruct (p c); [|done]. apply Hk. lia.
  - apply IH1; [done|]. intros j g' Hj. by apply IH2.
  - rewrite (IH1 k1 k2 i g Hi Hk), (IH2 k1 k2 i g Hi Hk). done.
  - change (star_loop (mt s r1) greedy k1 (S (length s)) i g
            = star_loop (mt s r1) greedy k2 (S (length s)) i g).
    apply star_loop_ext; auto.
  - destruct (i =? 0)%nat; auto.
  - destruct (at_eol s i); auto.
  - destruct (i =? length s)%nat; auto.
  - destruct (boundary s i); auto.
  - destruct (mt s r1 _ i g) as [[j g']|]; auto.
  - apply IH1; [done|]. intros j g' Hj. by apply Hk.
Qed.

(** The bound on the iterations of a star is never reached: any bound
    above the number of characters left gives the same result. *)
Lemma star_loop_fuel (r : re) (greedy : bool) (k : nat -> cap -> outcome) :
  forall fuel fuel' i g,
    (i <= length s)%nat -> (length s - i < fuel)%nat -> (fuel <= fuel')%nat ->
    star_loop (mt s r) greedy k fuel i g = star_loop (mt s r) greedy k fuel' i g.
Proof.
  induction fuel as [|fuel IHf]; intros fuel' i g Hi Hlt Hle; [lia|].
  destruct fuel' as [|fuel']; [lia|]. simpl.
  rewrite (mt_ext r
             (fun j g' => if (i <? j)%nat then star_loop (mt s r) greedy k fuel j g'
                          else None)
             (fun j g' => if (i <? j)%nat then star_loop (mt s r) greedy k fuel' j g'
                          else None) i g Hi); [done|].
  intros j g' Hj. destruct (Nat.ltb_spec i j); [|done].
  apply IHf; lia.
Qed.

Lemma search_sets_group (r : re) (fuel i a b : nat) (g : cap) :
  sets_group r = true ->
  search_from r s fuel i = Some (a, b, g) -> is_some g = true.
Proof.
  intros Hs.
  assert (Hfound : forall i0 j g1,
            mt s r accept i0 None = Some (j, g1) -> is_some g1 = true).
  { intros i0 j g1 E.
    apply (mt_sets_group r Hs) in E as (j2 & g2 & [= <- <-] & Hg). exact Hg. }
  revert i. induction fuel as [|fuel IH]; intros i; simpl;
    destruct (mt s r accept i None) as [[j g1]|] eqn:E.
  - intros [= <- <- <-]. eauto.
  - discriminate.
  - intros [= <- <- <-]. eauto.
  - apply IH.
Qed.

End MatcherFacts.

(** ** The extractor and the classifier *)

Section ExtractorFacts.

Lemma sublist_map {A B} (f : A -> B) (l1 l2 : list A) :
  sublist l1 l2 -> sublist (map f l1) (map f l2).
Proof. induction 1; simpl; by constructor. Qed.

Lemma line_step_append (line topic : text) :
  line_step line = Append topic -> topic = cleaned line.
Proof.
  unfold line_step.
  repeat match goal with
         | |- context [if ?b then _ else _] => destruct b
         end; congruence.
Qed.

(** The topics are cleaned lines, in the order of the lines. *)
Lemma scan_sublist (lines : list text) :
  sublist (scan lines) (map cleaned lines).
Proof.
  induction lines as [|line rest IH]; simpl; [constructor|].
  destruct (line_step line) eqn:E.
  - by constructor.
  - apply sublist_nil_l.
  - apply line_step_append in E as ->. by constructor.
Qed.

End ExtractorFacts.

(** C5 (as amended).  The classifier returns true on "not entirely correct
    but well done": none of the negative phrases (incorrect, wrong, not
    correct, not right) occurs in it, and "well done" does.  In the fallback
    branch the negative-word check does run before the positive-word check:
    feedback that does not start with "correct" and contains a negative
    phrase between word boundaries classifies as incorrect, whatever
    positive words it contains. *)
Theorem C5_negative_check_first :
  ModelsUtils.is_correct "not entirely correct but well done" = true /\
  forall feedback : string,
    let feedback_lower := strip (lower (of_string feedback)) in
    startswith feedback_lower (of_string "correct") = false ->
    is_some (re_search ModelsUtils.negative_indicators feedback_lower) = true ->
    ModelsUtils.is_correct feedback = false.
Proof.
  split; [by vm_compute|].
  intros feedback feedback_lower Hstart Hneg. unfold ModelsUtils.is_correct.
  fold feedback_lower. rewrite Hstart, Hneg.
  destruct (startswith feedback_lower (of_string "partially")); [done|].
  by destruct (startswith feedback_lower (of_string "incorrect")
               || startswith feedback_lower (of_string "wrong")).
Qed.

Lemma C5_negative_check_witness :
  ModelsUtils.is_correct "That is not right, but well done for trying" = false.
Proof.
  apply (proj2 C5_negative_check_first "That is not right, but well done for trying");
    vm_compute; reflexivity.
Defined.

(** C5, as stated, fails: the classifier returns true on the feedback
    "not entirely correct but well done". *)
Lemma C5_mixed_feedback_is_correct :
  ModelsUtils.is_correct "not entirely correct but well done" = true /\
  re_search ModelsUtils.negative_indicators
    (strip (lower (of_string "not entirely correct but well done"))) = None /\
  ModelsUtils.is_correct "not entirely correct but well done" <> false.
Proof. vm_compute. repeat split. discriminate. Qed.

(** C10.  The classification inlined in [save_practice_result] and the one
    of [evaluate_answer] give the same [is_correct] for every feedback
    string. *)
Theorem C10_same_classification (feedback : string) :
  PracticeResult.is_correct feedback = ModelsUtils.is_correct feedback.
Proof.
  unfold PracticeResult.is_correct, ModelsUtils.is_correct.
  unfold PracticeResult.negative_words, ModelsUtils.negative_indicators,
    PracticeResult.positive_words, ModelsUtils.positive_indicators.
  reflexivity.
Qed.

(** C9.  On the text of the example the extractor returns "Adding
    fractions" and "Long division", in that order.  In general it never
    raises; when a header is found the topics are cleaned lines of the
    captured section, in the order of the lines of the text; and when no
    header is found the result is the empty list. *)
Theorem C9_extractor :
  _extract_weak_areas_from_analysis "AREAS FOR IMPROVEMENT:
- Adding fractions
- Long division

You're doing great!" = Some ["Adding fractions"; "Long division"] /\
  (forall analysis_text : string,
     exists topics, _extract_weak_areas_from_analysis analysis_text = Some topics /\
       match re_search improvement_section (of_string analysis_text) with
       | None => topics = []
       | Some (_, _, g) =>
           exists a b, g = Some (a, b) /\
             sublist topics
               (map to_string
                  (map cleaned
                     (split_lines (strip (slice (of_string analysis_text) a b)))))
       end) /\
  (forall analysis_text : string,
     re_search improvement_section (of_string analysis_text) = None ->
     _extract_weak_areas_from_analysis analysis_text = Some []).
Proof.
  split; [by vm_compute|]. split.
  - intros analysis_text. unfold _extract_weak_areas_from_analysis.
    destruct (re_search improvement_section (of_string analysis_text))
      as [[[st en] g]|] eqn:E; [|by exists []].
    assert (Hg : is_some g = true).
    { unfold re_search in E. eapply search_sets_group; [|exact E]. reflexivity. }
    destruct g as [[a b]|]; [|discriminate]. unfold group1. simpl.
    destruct (is_empty (strip (slice (of_string analysis_text) a b))).
    + exists []. split; [done|]. exists a, b. split; [done|]. apply sublist_nil_l.
    + eexists. split; [done|]. exists a, b. split; [done|].
      apply sublist_map, scan_sublist.
  - intros analysis_text E. unfold _extract_weak_areas_from_analysis. by rewrite E.
Qed.

Lemma C9_extractor_witness :
  _extract_weak_areas_from_analysis "Well done overall. No weak points were found." = Some [].
Proof.
  apply (proj2 (proj2 C9_extractor) "Well done overall. No weak points were found.").
  vm_compute. reflexivity.
Defined.

(** * Further properties *)

(** ** The ledger *)

Section LedgerMore.

Implicit Types (db : Db) (p : profile).

Lemma new_streak_bounds today last streak :
  0 <= streak -> 0 <= new_streak today last streak.
Proof.
  unfold new_streak. destruct last as [d|]; [|lia].
  destruct (today - d =? 1); [lia|]. destruct (1 <? today - d); lia.
Qed.

Lemma update_row_ok p points streak today :
  profile_ok p -> 0 <= points -> 0 <= streak ->
  profile_ok (update_row p points streak (Z.max (longest_streak p) streak) today).
Proof.
  intros (Ht & Hl & Hs) Hp Hst. unfold profile_ok, update_row. simpl.
  split; [lia|]. split; [|lia].
  by rewrite Z.quot_div_nonneg by lia.
Qed.

Lemma do_call_ok db c : ledger_ok db -> 0 <= call_points c -> ledger_ok (do_call db c).
Proof.
  intros Hok Hp student_id p. unfold do_call.
  destruct (decide (student_id = call_student_id c)) as [->|Hne].
  - destruct (student_gamification db !! call_student_id c) as [p0|] eqn:E.
    + rewrite (add_points_row _ _ _ _ _ _ E). intros [= <-].
      apply update_row_ok; [by eapply Hok|done|].
      apply new_streak_bounds. by destruct (Hok _ _ E) as (_ & _ & ? & _).
    + rewrite add_points_absent by done. simpl. rewrite E. discriminate.
  - rewrite add_points_other by done. apply Hok.
Qed.

(** X1.  Profiles that satisfy the invariant (total not negative, level =
    floor(total / 100) + 1, 0 <= current streak <= longest streak) still
    satisfy it after any run of [add_points] calls with non-negative
    points, whatever the students and the days of the calls. *)
Theorem ledger_invariant_run db cs :
  ledger_ok db ->
  Forall (fun c => 0 <= call_points c) cs ->
  ledger_ok (run db cs).
Proof.
  intros Hok Hcs. revert db Hok.
  induction Hcs as [|c cs Hc _ IH]; intros db Hok; simpl; [done|].
  apply IH, do_call_ok; done.
Qed.

Lemma ledger_invariant_run_witness :
  ledger_ok (run (snd (_initialize_gamification empty_db 7)) Scenario.history).
Proof.
  apply ledger_invariant_run.
  - intros student_id p.
    change (snd (_initialize_gamification empty_db 7))
      with (MkDb (<[7 := default_profile]> ∅) [] []). simpl.
    destruct (decide (student_id = 7)) as [->|Hne].
    + rewrite lookup_insert_eq. intros [= <-].
      split; [simpl; lia|]. split; [reflexivity|simpl; lia].
    + rewrite lookup_insert_ne by done. by rewrite lookup_empty.
  - unfold Scenario.history. repeat constructor; simpl; lia.
Defined.

Lemma do_call_total db c student_id p :
  student_gamification db !! student_id = Some p ->
  total_of (do_call db c) student_id
  = Some (total_points p
          + (if decide (call_student_id c = student_id) then call_points c else 0)).
Proof.
  intros E. unfold total_of, do_call. destruct (decide _) as [->|Hne].
  - by rewrite (add_points_row _ _ _ _ _ _ E).
  - rewrite add_points_other by done. rewrite E. simpl. f_equal. lia.
Qed.

(** X2.  No point is lost or invented: after any run of [add_points]
    calls, the total of a student who had a profile is the old total plus
    the points of the calls made for that student. *)
Theorem points_conserved db cs student_id p :
  student_gamification db !! student_id = Some p ->
  total_of (run db cs) student_id = Some (total_points p + points_for student_id cs).
Proof.
  revert db p. induction cs as [|c cs IH]; intros db p E; simpl.
  - unfold total_of, points_for. rewrite E. simpl. f_equal. lia.
  - pose proof (do_call_total db c student_id p E) as Ht. unfold total_of in Ht.
    destruct (student_gamification (do_call db c) !! student_id) as [p1|] eqn:E1;
      [|discriminate].
    simpl in Ht. injection Ht as Ht.
    rewrite (IH _ _ E1). f_equal. unfold points_for. rewrite filter_cons.
    destruct (decide (call_student_id c = student_id)); simpl; lia.
Qed.

Lemma points_conserved_witness :
  total_of (run (snd (_initialize_gamification empty_db 7)) Scenario.history) 7
  = Some (0 + points_for 7 Scenario.history).
Proof.
  apply (points_conserved (snd (_initialize_gamification empty_db 7)) Scenario.history
           7 default_profile).
  reflexivity.
Defined.

End LedgerMore.

Section BadgeRules.

Implicit Types (db : Db) (p : profile) (entry : string * string * string).

Lemma rule_in db student_id met entry e :
  In e (rule db student_id met entry) ->
  e = entry /\ met = true /\ _has_badge db student_id (fst (fst entry)) = false.
Proof.
  unfold rule. destruct met; simpl; [|tauto].
  destruct (_has_badge db student_id (fst (fst entry))); simpl; [tauto|].
  intros [<-|[]]. done.
Qed.

Lemma rule_fires db student_id entry :
  _has_badge db student_id (fst (fst entry)) = false ->
  rule db student_id true entry = [entry].
Proof. unfold rule. by intros ->. Qed.

Lemma has_badge_row db student_id entry bs :
  In entry bs ->
  existsb (fun b => (badge_student_id b =? student_id)
                    && String.eqb (badge_name b) (fst (fst entry)))
          (map (badge_of student_id) bs) = true.
Proof.
  intros Hin. apply existsb_exists. exists (badge_of student_id entry).
  split; [by apply in_map|]. simpl. by rewrite Z.eqb_refl, String.eqb_refl.
Qed.

(** After the evaluation the student holds every badge whose rule is met
    by the stored row and the streak passed in. *)
Lemma check_holds db student_id new_points result name :
  student_gamification db !! student_id = Some result ->
  threshold_met result name = true ->
  _has_badge (_check_and_award_badges db student_id new_points (current_streak result))
    student_id name = true.
Proof.
  intros E Hmet. unfold _check_and_award_badges. rewrite E.
  unfold _has_badge at 1. rewrite awards_badges, existsb_app.
  destruct (_has_badge db student_id name) eqn:Hheld.
  { unfold _has_badge in Hheld. by rewrite Hheld. }
  apply orb_true_iff. right. unfold threshold_met in Hmet.
  repeat match type of Hmet with
         | (if String.eqb ?a ?b then _ else _) = true =>
             destruct (String.eqb_spec a b) as [->|_]
         end; try discriminate;
    rewrite Hmet;
    match goal with
    | |- context [rule db student_id true ?e] =>
        rewrite (rule_fires db student_id e Hheld);
        apply (has_badge_row db student_id e);
        rewrite !in_app_iff; simpl; tauto
    end.
Qed.

Lemma add_points_holds today db student_id points reason p' name :
  student_gamification (snd (add_points today db student_id points reason)) !! student_id
    = Some p' ->
  threshold_met p' name = true ->
  _has_badge (snd (add_points today db student_id points reason)) student_id name = true.
Proof.
  destruct (student_gamification db !! student_id) as [p|] eqn:E.
  - rewrite (add_points_row _ _ _ _ _ _ E). intros [= <-] Hmet.
    unfold add_points. rewrite E. simpl.
    set (streak := new_streak today (last_activity_date p) (current_streak p)) in *.
    set (row := update_row p points streak (Z.max (longest_streak p) streak) today) in *.
    apply (check_holds _ student_id points row name); [|exact Hmet].
    simpl. apply lookup_insert_eq.
  - rewrite add_points_absent by done. simpl. rewrite E. discriminate.
Qed.

(** X3.  After an [add_points] call the student holds every badge whose
    threshold the stored profile meets: 100, 500 and 1000 points, streaks
    of 7 and 30 days, levels 5 and 10. *)
Theorem earned_badges_are_held today db student_id points reason p' name :
  student_gamification (snd (add_points today db student_id points reason)) !! student_id
    = Some p' ->
  threshold_met p' name = true ->
  _has_badge (snd (add_points today db student_id points reason)) student_id name = true.
Proof.
  destruct (student_gamification db !! student_id) as [p|] eqn:E.
  - rewrite (add_points_row _ _ _ _ _ _ E). intros [= <-] Hmet.
    unfold add_points. rewrite E. simpl.
    set (streak := new_streak today (last_activity_date p) (current_streak p)) in *.
    set (row := update_row p points streak (Z.max (longest_streak p) streak) today) in *.
    apply (check_holds _ student_id points row name); [|exact Hmet].
    simpl. apply lookup_insert_eq.
  - rewrite add_points_absent by done. simpl. rewrite E. discriminate.
Qed.

Lemma earned_badges_are_held_witness :
  _has_badge (snd (add_points 101 Scenario.newcomer_db 7 10 "quiz")) 7 "Week Warrior" = true.
Proof.
  apply (earned_badges_are_held 101 Scenario.newcomer_db 7 10 "quiz"
           (Profile 105 2 7 7 (Some 101)) "Week Warrior"); reflexivity.
Defined.

(** X4.  Every badge row that an [add_points] call inserts is for the
    student of the call, for a badge that student did not hold, and for a
    rule whose threshold the stored profile meets; with each badge row goes
    one notification row for the same student, in the same order. *)
Theorem awarded_badges_are_earned today db student_id points reason :
  exists l : list (string * string * string),
    badges (snd (add_points today db student_id points reason))
      = badges db ++ map (badge_of student_id) l /\
    notifications (snd (add_points today db student_id points reason))
      = notifications db ++ map (notification_of student_id) l /\
    Forall (fun e =>
              _has_badge db student_id (fst (fst e)) = false /\
              exists p',
                student_gamification (snd (add_points today db student_id points reason))
                  !! student_id = Some p' /\
                threshold_met p' (fst (fst e)) = true) l.
Proof.
  destruct (student_gamification db !! student_id) as [p|] eqn:E.
  - pose proof (add_points_row today db student_id points reason p E) as Hrow.
    revert Hrow. unfold add_points. rewrite E. simpl.
    set (streak := new_streak today (last_activity_date p) (current_streak p)).
    set (row := update_row p points streak (Z.max (longest_streak p) streak) today).
    set (db1 := MkDb _ _ _). intros Hrow.
    unfold _check_and_award_badges in *.
    assert (E1 : student_gamification db1 !! student_id = Some row)
      by apply lookup_insert_eq.
    rewrite E1 in *. eexists.
    split; [rewrite awards_badges; reflexivity|].
    split; [rewrite awards_notifications; reflexivity|].
    apply Forall_forall. intros e He. apply list_elem_of_In in He.
    repeat (apply in_app_or in He; destruct He as [He|He]);
      apply rule_in in He as (-> & Hmet & Hheld);
      (split; [exact Hheld|]); exists row; (split; [exact Hrow|]); exact Hmet.
  - rewrite add_points_absent by done. exists []. simpl.
    rewrite !app_nil_r. repeat split. constructor.
Qed.

End BadgeRules.

(** ** The matcher and the spans a pattern matches *)

Section MatcherSemantics.

Variable s : text.

Lemma matches_bounds r i j :
  matches s r i j -> (i <= j)%nat /\ ((i <= length s)%nat -> (j <= length s)%nat).
Proof.
  induction 1; try (split; [lia|auto]; lia).
  match goal with H : s !! _ = Some _ |- _ => apply lookup_lt_Some in H end.
  lia.
Qed.

Lemma star_loop_sound (P : nat -> nat -> Prop)
    (m : (nat -> cap -> outcome) -> nat -> cap -> outcome)
    (greedy : bool) (r : re) (k : nat -> cap -> outcome) :
  (forall k' i g res,
     cap_sat P g -> m k' i g = Some res ->
     exists j g', matches s r i j /\ cap_sat P g' /\ k' j g' = Some res) ->
  forall fuel i g res,
    cap_sat P g -> star_loop m greedy k fuel i g = Some res ->
    exists j g', matches s (Star greedy r) i j /\ cap_sat P g' /\ k j g' = Some res.
Proof.
  intros Hm fuel. induction fuel as [|fuel IHf]; intros i g res Hg; simpl.
  { intros H. exists i, g. split; [constructor|done]. }
  assert (Hagain :
    m (fun j g' => if (i <? j)%nat then star_loop m greedy k fuel j g' else None) i g
    = Some res ->
    exists j g', matches s (Star greedy r) i j /\ cap_sat P g' /\ k j g' = Some res).
  { intros H. apply Hm in H as (j1 & g1 & Hm1 & Hg1 & H); [|done].
    destruct (Nat.ltb_spec i j1); [|discriminate].
    apply IHf in H as (j2 & g2 & Hm2 & Hg2 & H); [|done].
    exists j2, g2. split; [|done]. by apply M_star_more with j1. }
  assert (Hstop : k i g = Some res ->
    exists j g', matches s (Star greedy r) i j /\ cap_sat P g' /\ k j g' = Some res).
  { intros H. exists i, g. split; [constructor|done]. }
  destruct greedy.
  - destruct (m _ i g) eqn:E.
    + intros [= <-]. by apply Hagain.
    + exact Hstop.
  - destruct (k i g) eqn:E.
    + intros [= <-]. by apply Hstop.
    + exact Hagain.
Qed.

(** What the matcher accepts is a match, and the span it leaves for the
    group satisfies what the groups of the pattern guarantee. *)
Lemma mt_sound (P : nat -> nat -> Prop) (r : re) :
  groups_sat s P r ->
  forall k i g res,
    cap_sat P g -> mt s r k i g = Some res ->
    exists j g', matches s r i j /\ cap_sat P g' /\ k j g' = Some res.
Proof.
  induction r as [ |p|r1 IH1 r2 IH2|r1 IH1 r2 IH2|greedy r1 IH1| | | | |r1 IH1|r1 IH1];
    intros Hsat k i g res Hg;
    [simpl|simpl|simpl|simpl|idtac|simpl|simpl|simpl|simpl|simpl|simpl].
  - intros H. exists i, g. split; [constructor|done].
  - destruct (s !! i) as [c|] eqn:Ec; [|discriminate].
    destruct (p c) eqn:Ep; [|discriminate].
    intros H. exists (S i), g. split; [by econstructor|done].
  - destruct Hsat as [Hs1 Hs2]. intros H.
    apply (IH1 Hs1) in H as (j1 & g1 & Hm1 & Hg1 & H); [|done].
    apply (IH2 Hs2) in H as (j2 & g2 & Hm2 & Hg2 & H); [|done].
    exists j2, g2. split; [by econstructor|done].
  - destruct Hsat as [Hs1 Hs2]. destruct (mt s r1 k i g) eqn:E.
    + intros [= <-]. apply (IH1 Hs1) in E as (j1 & g1 & Hm1 & Hg1 & H); [|done].
      exists j1, g1. split; [by apply M_alt_l|done].
    + intros H. apply (IH2 Hs2) in H as (j1 & g1 & Hm1 & Hg1 & H); [|done].
      exists j1, g1. split; [by apply M_alt_r|done].
  - change (mt s (Star greedy r1) k i g)
      with (star_loop (mt s r1) greedy k (S (length s)) i g).
    apply star_loop_sound with (P := P); [|done].
    intros k' i' g' res' Hg'. by apply IH1.
  - destruct (Nat.eqb_spec i 0) as [->|]; [|discriminate].
    intros H. exists 0%nat, g. split; [constructor|done].
  - destruct (at_eol s i) eqn:E; [|discriminate].
    intros H. exists i, g. split; [by constructor|done].
  - destruct (Nat.eqb_spec i (length s)) as [->|]; [|discriminate].
    intros H. exists (length s), g. split; [constructor|done].
  - destruct (boundary s i) eqn:E; [|discriminate].
    intros H. exists i, g. split; [by constructor|done].
  - destruct (mt s r1 (fun j g' => Some (j, g')) i g) as [[j g1]|] eqn:E;
      [|discriminate].
    apply (IH1 Hsat) in E as (j2 & g2 & Hm & Hg2 & [= -> ->]); [|done].
    intros H. exists i, g1. split; [by econstructor|done].
  - destruct Hsat as [HP Hs1]. intros H.
    apply (IH1 Hs1) in H as (j1 & g1 & Hm & _ & H); [|done].
    exists j1, (Some (i, j1)). split; [by constructor|]. split; [|done].
    simpl. by apply HP.
Qed.

(** Where there is a match the matcher finds one, provided every
    continuation of it succeeds. *)
Lemma mt_complete r i j :
  matches s r i j ->
  (i <= length s)%nat ->
  forall k g, (forall g', is_some (k j g') = true) -> is_some (mt s r k i g) = true.
Proof.
  induction 1 as [i|p i c Hc Hp|r1 r2 i j l H1 IH1 H2 IH2|r1 r2 i j H1 IH1
                  |r1 r2 i j H2 IH2|greedy r i|greedy r i j l H1 IH1 Hlt H2 IH2
                  | |i He| |i Hb|r i j H1 IH1|r i j H1 IH1];
    intros Hi k g Hk;
    [simpl|simpl|simpl|simpl|simpl|idtac|idtac|simpl|simpl|simpl|simpl|simpl|simpl].
  - apply Hk.
  - rewrite Hc, Hp. apply Hk.
  - apply IH1; [done|]. intros g'. apply IH2; [|done].
    by apply (matches_bounds _ _ _ H1).
  - destruct (mt s r1 k i g) eqn:E; [done|].
    specialize (IH1 Hi k g Hk). by rewrite E in IH1.
  - destruct (mt s r1 k i g) eqn:E; [done|]. by apply IH2.
  - change (is_some (star_loop (mt s r) greedy k (S (length s)) i g) = true).
    simpl. destruct greedy.
    + destruct (mt s r _ i g); [done|apply Hk].
    + specialize (Hk g). destruct (k i g); [done|discriminate].
  - change (is_some (star_loop (mt s r) greedy k (S (length s)) i g) = true).
    simpl.
    assert (Hj : (j <= length s)%nat) by by apply (matches_bounds _ _ _ H1).
    assert (Hagain :
      is_some (mt s r (fun j' g' => if (i <? j')%nat
                                    then star_loop (mt s r) greedy k (length s) j' g'
                                    else None) i g) = true).
    { apply IH1; [done|]. intros g'.
      destruct (Nat.ltb_spec i j); [|lia].
      rewrite (star_loop_fuel s r greedy k (length s) (S (length s))) by lia.
      by apply IH2. }
    destruct greedy.
    + destruct (mt s r _ i g); [done|discriminate].
    + destruct (k i g); [done|exact Hagain].
  - apply Hk.
  - rewrite He. apply Hk.
  - rewrite Nat.eqb_refl. apply Hk.
  - rewrite Hb. apply Hk.
  - specialize (IH1 Hi (fun j' g' => Some (j', g')) g (fun _ => eq_refl)).
    destruct (mt s r _ i g) as [[j' g1]|]; [apply Hk|discriminate].
  - apply IH1; [done|]. intros g'. apply Hk.
Qed.

Lemma groups_sat_true r : groups_sat s (fun _ _ => True) r.
Proof. induction r; simpl; auto. Qed.

(** [re.match] succeeds exactly when the pattern matches a span that
    starts the text. *)
Lemma re_match_spec r :
  is_some (re_match r s) = true <-> exists j, matches s r 0 j.
Proof.
  unfold re_match. split.
  - destruct (mt s r accept 0 None) as [res|] eqn:E; [|discriminate]. intros _.
    apply (mt_sound (fun _ _ => True) r (groups_sat_true r)) in E
      as (j & g' & Hm & _ & _); [|done].
    by exists j.
  - intros [j Hm]. apply (mt_complete r 0 j Hm); [lia|done].
Qed.

Lemma search_from_spec r fuel i :
  (i + fuel <= length s)%nat ->
  is_some (search_from r s fuel i) = true
  <-> exists i' j, (i <= i' <= i + fuel)%nat /\ matches s r i' j.
Proof.
  revert i. induction fuel as [|fuel IH]; intros i Hi; simpl.
  - destruct (mt s r accept i None) as [[j g]|] eqn:E.
    + split; [intros _|done].
      apply (mt_sound (fun _ _ => True) r (groups_sat_true r)) in E
        as (j' & g' & Hm & _ & _); [|done].
      exists i, j'. split; [lia|done].
    + split; [discriminate|]. intros (i' & j & Hr & Hm).
      assert (i' = i) as -> by lia.
      pose proof (mt_complete r i j Hm ltac:(lia) accept None (fun _ => eq_refl)) as Hc.
      by rewrite E in Hc.
  - destruct (mt s r accept i None) as [[j g]|] eqn:E.
    + split; [intros _|done].
      apply (mt_sound (fun _ _ => True) r (groups_sat_true r)) in E
        as (j' & g' & Hm & _ & _); [|done].
      exists i, j'. split; [lia|done].
    + rewrite IH by lia. split.
      * intros (i' & j & Hr & Hm). exists i', j. split; [lia|done].
      * intros (i' & j & Hr & Hm). exists i', j. split; [|done].
        destruct (decide (i' = i)) as [->|]; [|lia].
        pose proof (mt_complete r i j Hm ltac:(lia) accept None (fun _ => eq_refl)) as Hc.
        by rewrite E in Hc.
Qed.

(** [re.search] succeeds exactly when the pattern matches some span of
    the text. *)
Lemma re_search_spec r :
  is_some (re_search r s) = true
  <-> exists i j, (i <= length s)%nat /\ matches s r i j.
Proof.
  unfold re_search. rewrite search_from_spec by lia. split.
  - intros (i & j & Hr & Hm). exists i, j. split; [lia|done].
  - intros (i & j & Hr & Hm). exists i, j. split; [lia|done].
Qed.

End MatcherSemantics.

(** ** The form checks *)

Section FormChecks.

Lemma search_class (p : ascii -> bool) (s : text) :
  is_some (re_search (Chr p) s) = existsb p s.
Proof.
  apply eq_true_iff_eq. rewrite re_search_spec, existsb_exists. split.
  - intros (i & j & _ & Hm). inversion Hm; subst.
    exists c. split; [|done]. apply list_elem_of_In. by eapply list_elem_of_lookup_2.
  - intros (c & Hin & Hp). apply list_elem_of_In, list_elem_of_lookup in Hin as [i Hi].
    exists i, (S i). split; [apply lookup_lt_Some in Hi; lia|]. by econstructor.
Qed.

(** X5.  [validate_password] accepts exactly the passwords of at least 8
    characters (not bytes) that contain an uppercase letter, a lowercase
    letter and a digit of ASCII; it answers "Password is strong" for these
    and for no other. *)
Theorem validate_password_spec (password : string) :
  (fst (validate_password password) = true <->
   (8 <= len (of_string password))%nat /\
   existsb is_upper (of_string password) = true /\
   existsb is_lower (of_string password) = true /\
   existsb is_digit (of_string password) = true) /\
  (snd (validate_password password) = "Password is strong" <->
   fst (validate_password password) = true).
Proof.
  unfold validate_password. rewrite !search_class.
  destruct (Nat.ltb_spec (len (of_string password)) 8);
    [split; split; [discriminate|lia|discriminate|discriminate]|].
  destruct (existsb is_upper (of_string password));
    [|split; split; simpl; try discriminate; intros (_ & ? & _); discriminate].
  destruct (existsb is_lower (of_string password));
    [|split; split; simpl; try discriminate; intros (_ & _ & ? & _); discriminate].
  destruct (existsb is_digit (of_string password));
    [|split; split; simpl; try discriminate; intros (_ & _ & _ & ?); discriminate].
  simpl. repeat split; done.
Qed.

Lemma validate_password_witness :
  fst (validate_password "Tr1änglé") = true /\
  snd (validate_password "Tr1änglé") = "Password is strong" /\
  fst (validate_password "Pässw0r") <> true.
Proof.
  pose proof (validate_password_spec "Tr1änglé") as [[_ Hacc] [_ Hmsg]].
  assert (Hok : fst (validate_password "Tr1änglé") = true).
  { apply Hacc. repeat split; [vm_compute; lia|reflexivity..]. }
  split; [exact Hok|]. split; [exact (Hmsg Hok)|].
  intros H. apply (proj1 (proj1 (validate_password_spec "Pässw0r"))) in H as [Hlen _].
  vm_compute in Hlen. lia.
Defined.

End FormChecks.

(** ** Patterns as sets of texts *)

Section Language.

Lemma slice_same (s : text) i : slice s i i = [].
Proof. unfold slice. by rewrite Nat.sub_diag. Qed.

Lemma slice_app (s : text) i j l :
  (i <= j)%nat -> (j <= l)%nat -> slice s i l = slice s i j ++ slice s j l.
Proof.
  intros Hij Hjl. unfold slice.
  replace (l - i)%nat with ((j - i) + (l - j))%nat by lia.
  rewrite <- take_take_drop, drop_drop. do 3 f_equal. lia.
Qed.

Lemma slice_single (s : text) i c : s !! i = Some c -> slice s i (S i) = [c].
Proof.
  intros H. unfold slice. replace (S i - i)%nat with 1%nat by lia.
  rewrite <- (take_drop_middle s i c H) at 1.
  rewrite drop_app_length'; [done|].
  rewrite length_take. apply lookup_lt_Some in H. lia.
Qed.

Lemma slice_nonempty (s : text) i j :
  (i < j)%nat -> (i < length s)%nat -> slice s i j <> [].
Proof.
  intros Hij Hi. unfold slice. intros H. apply (f_equal length) in H.
  rewrite length_take, length_drop in H. simpl in H. lia.
Qed.

Lemma slice_whole (s : text) j : s = slice s 0 j ++ drop j s.
Proof. unfold slice. rewrite Nat.sub_0_r, drop_0. by rewrite take_drop. Qed.

Lemma slice_length (s : text) i j :
  (i <= j)%nat -> (j <= length s)%nat -> length (slice s i j) = (j - i)%nat.
Proof. intros. unfold slice. rewrite length_take, length_drop. lia. Qed.

(** A match of a pattern without anchors is a match of the slice. *)
Lemma matches_lmatch (s : text) r i j :
  matches s r i j -> pure r = true -> (i <= length s)%nat -> lmatch r (slice s i j).
Proof.
  induction 1 as [i|p i c Hc Hp|r1 r2 i j l H1 IH1 H2 IH2|r1 r2 i j H1 IH1
                  |r1 r2 i j H2 IH2|greedy r i|greedy r i j l H1 IH1 Hlt H2 IH2
                  | |i He| |i Hb|r i j H1 IH1|r i j H1 IH1];
    simpl; intros Hpure Hi; try discriminate.
  - rewrite slice_same. constructor.
  - rewrite (slice_single s i c Hc). by constructor.
  - apply andb_true_iff in Hpure as [Hp1 Hp2].
    destruct (matches_bounds s _ _ _ H1) as [Hij Hjb].
    destruct (matches_bounds s _ _ _ H2) as [Hjl _].
    rewrite (slice_app s i j l) by done. constructor; auto.
  - apply andb_true_iff in Hpure as [Hp1 Hp2]. apply L_alt_l. auto.
  - apply andb_true_iff in Hpure as [Hp1 Hp2]. apply L_alt_r. auto.
  - rewrite slice_same. constructor.
  - destruct (matches_bounds s _ _ _ H1) as [Hij Hjb].
    destruct (matches_bounds s _ _ _ H2) as [Hjl _].
    rewrite (slice_app s i j l) by done. constructor; auto.
    apply slice_nonempty; lia.
  - constructor. auto.
Qed.

(** A text of the pattern is matched wherever it stands. *)
Lemma lmatch_matches r u :
  lmatch r u ->
  forall pre post : text,
    matches (pre ++ u ++ post) r (length pre) (length pre + length u).
Proof.
  induction 1 as [|p c Hp|r1 r2 u v H1 IH1 H2 IH2|r1 r2 u H1 IH1|r1 r2 u H2 IH2
                  |greedy r|greedy r u v H1 IH1 Hne H2 IH2|r u H1 IH1];
    intros pre post; simpl.
  - rewrite Nat.add_0_r. constructor.
  - replace (length pre + 1)%nat with (S (length pre)) by lia.
    econstructor; [|exact Hp]. by apply (list_lookup_middle pre post c).
  - rewrite length_app. apply M_seq with (length pre + length u)%nat.
    + specialize (IH1 pre (v ++ post)). by rewrite <- app_assoc.
    + specialize (IH2 (pre ++ u) post).
      rewrite length_app, <- !app_assoc in IH2.
      rewrite <- app_assoc, Nat.add_assoc. exact IH2.
  - apply M_alt_l, IH1.
  - apply M_alt_r, IH2.
  - rewrite Nat.add_0_r. constructor.
  - rewrite length_app. apply M_star_more with (length pre + length u)%nat.
    + specialize (IH1 pre (v ++ post)). by rewrite <- app_assoc.
    + destruct u; [done|simpl; lia].
    + specialize (IH2 (pre ++ u) post).
      rewrite length_app, <- !app_assoc in IH2.
      rewrite <- app_assoc, Nat.add_assoc. exact IH2.
  - constructor. apply IH1.
Qed.

Lemma matches_cat_app (s : text) rs1 rs2 i j :
  matches s (cat (rs1 ++ rs2)) i j
  <-> exists m, matches s (cat rs1) i m /\ matches s (cat rs2) m j.
Proof.
  revert i. induction rs1 as [|r rs1 IH]; intros i; simpl.
  - split.
    + intros H. exists i. split; [constructor|done].
    + intros (m & Hm & H). by inversion Hm; subst.
  - split.
    + intros H. inversion H; subst.
      match goal with H2 : matches s (cat (rs1 ++ rs2)) _ _ |- _ =>
        apply IH in H2 as (m & Hm1 & Hm2) end.
      exists m. split; [by econstructor|done].
    + intros (m & Hm & H). inversion Hm; subst.
      econstructor; [eassumption|]. apply IH. eauto.
Qed.

(** Runs of a class, literals of one character. *)
Lemma lmatch_star_class greedy p u :
  lmatch (Star greedy (Chr p)) u <-> forallb p u = true.
Proof.
  split.
  - intros H. remember (Star greedy (Chr p)) as r eqn:Er.
    induction H; try discriminate; [done|].
    injection Er as -> ->.
    match goal with H : lmatch (Chr p) _ |- _ => inversion H; subst end.
    simpl. rewrite IHlmatch2 by done.
    match goal with H : p _ = true |- _ => by rewrite H end.
  - induction u as [|c u IH]; simpl; [constructor|].
    intros H. apply andb_true_iff in H as [Hc Hu].
    change (c :: u) with ([c] ++ u). constructor; [by constructor|done|auto].
Qed.

Lemma lmatch_plus_class p u :
  lmatch (plus (Chr p)) u <-> u <> [] /\ forallb p u = true.
Proof.
  unfold plus. split.
  - intros H. inversion H; subst.
    match goal with H : lmatch (Chr p) _ |- _ => inversion H; subst end.
    match goal with H : lmatch (Star _ _) _ |- _ => apply lmatch_star_class in H end.
    simpl. split; [done|]. apply andb_true_iff. done.
  - intros [Hne H]. destruct u as [|c u]; [done|]. simpl in H.
    apply andb_true_iff in H as [Hc Hu].
    change (c :: u) with ([c] ++ u). constructor; [by constructor|].
    by apply lmatch_star_class.
Qed.

Lemma lmatch_class p u : lmatch (Chr p) u <-> exists c, u = [c] /\ p c = true.
Proof.
  split.
  - intros H. inversion H; subst. eauto.
  - intros (c & -> & Hp). by constructor.
Qed.

Lemma lmatch_cat_cons r rs u :
  lmatch (cat (r :: rs)) u <-> exists v w, u = v ++ w /\ lmatch r v /\ lmatch (cat rs) w.
Proof.
  simpl. split.
  - intros H. inversion H; subst. eauto.
  - intros (v & w & -> & Hv & Hw). by constructor.
Qed.

Lemma lmatch_cat_nil u : lmatch (cat []) u <-> u = [].
Proof.
  simpl. split; [intros H; by inversion H|intros ->; constructor].
Qed.

Lemma lmatch_char (c : ascii) u :
  lmatch (Chr (Ascii.eqb c)) u <-> u = [c].
Proof.
  rewrite lmatch_class. split.
  - intros (d & -> & H). apply Ascii.eqb_eq in H. by subst.
  - intros ->. exists c. split; [done|apply Ascii.eqb_refl].
Qed.

Lemma at_eol_drop (s : text) j :
  (j <= length s)%nat ->
  at_eol s j = true <-> drop j s = [] \/ drop j s = ["010"%char].
Proof.
  intros Hj. unfold at_eol. rewrite orb_true_iff, andb_true_iff, !Nat.eqb_eq. split.
  - intros [->|[Hlen Hc]]; [left; by rewrite drop_all|right].
    destruct (s !! j) as [c|] eqn:E; [|discriminate].
    apply Ascii.eqb_eq in Hc as ->.
    rewrite (drop_S s "010"%char j E). rewrite Hlen, drop_all. done.
  - intros [H0|H0]; pose proof (f_equal length H0) as H;
      rewrite length_drop in H; simpl in H.
    + left. lia.
    + right. split; [lia|].
      destruct (s !! j) as [c|] eqn:E; [|apply lookup_ge_None in E; lia].
      rewrite (drop_S s c j E) in H0. injection H0 as -> _.
      apply Ascii.eqb_refl.
Qed.

End Language.

Section EmailCheck.

Lemma lmatch_lit1 (c : ascii) u :
  lmatch (lit (String c EmptyString)) u <-> u = [c].
Proof.
  unfold lit. simpl. split.
  - intros H. inversion H; subst.
    match goal with H1 : lmatch (Chr _) _ |- _ => apply lmatch_char in H1 as -> end.
    match goal with H2 : lmatch Eps _ |- _ => by inversion H2 end.
  - intros ->. change [c] with ([c] ++ []). constructor; [by apply lmatch_char|constructor].
Qed.

Lemma email_language u :
  lmatch (cat email_body) u <->
  exists loc dom tld : text,
    u = loc ++ "@"%char :: dom ++ "."%char :: tld /\
    loc <> [] /\ forallb email_local loc = true /\
    dom <> [] /\ forallb email_domain dom = true /\
    (2 <= length tld)%nat /\ forallb is_alpha tld = true.
Proof.
  unfold email_body. split.
  - intros H.
    apply lmatch_cat_cons in H as (loc & w1 & -> & Hloc & H).
    apply lmatch_cat_cons in H as (at_ & w2 & -> & Hat & H).
    apply lmatch_cat_cons in H as (dom & w3 & -> & Hdom & H).
    apply lmatch_cat_cons in H as (dot & w4 & -> & Hdot & H).
    apply lmatch_cat_cons in H as (c1 & w5 & -> & Hc1 & H).
    apply lmatch_cat_cons in H as (c2 & w6 & -> & Hc2 & H).
    apply lmatch_cat_cons in H as (rest & w7 & -> & Hrest & H).
    apply lmatch_cat_nil in H as ->.
    apply lmatch_plus_class in Hloc as [Hl1 Hl2].
    apply lmatch_lit1 in Hat as ->.
    apply lmatch_plus_class in Hdom as [Hd1 Hd2].
    apply lmatch_lit1 in Hdot as ->.
    apply lmatch_class in Hc1 as (a1 & -> & Ha1).
    apply lmatch_class in Hc2 as (a2 & -> & Ha2).
    apply lmatch_star_class in Hrest.
    exists loc, dom, (a1 :: a2 :: rest). rewrite app_nil_r. simpl.
    rewrite Ha1, Ha2, Hrest. repeat split; try done. lia.
  - intros (loc & dom & tld & -> & Hl1 & Hl2 & Hd1 & Hd2 & Hlen & Htld).
    destruct tld as [|a1 [|a2 rest]]; simpl in Hlen; try lia.
    simpl in Htld. apply andb_true_iff in Htld as [Ha1 Htld].
    apply andb_true_iff in Htld as [Ha2 Hrest].
    apply lmatch_cat_cons. exists loc, ("@"%char :: dom ++ "."%char :: a1 :: a2 :: rest).
    split; [done|]. split; [by apply lmatch_plus_class|].
    apply lmatch_cat_cons. exists ["@"%char], (dom ++ "."%char :: a1 :: a2 :: rest).
    split; [done|]. split; [by apply lmatch_lit1|].
    apply lmatch_cat_cons. exists dom, ("."%char :: a1 :: a2 :: rest).
    split; [done|]. split; [by apply lmatch_plus_class|].
    apply lmatch_cat_cons. exists ["."%char], (a1 :: a2 :: rest).
    split; [done|]. split; [by apply lmatch_lit1|].
    apply lmatch_cat_cons. exists [a1], (a2 :: rest).
    split; [done|]. split; [apply lmatch_class; eauto|].
    apply lmatch_cat_cons. exists [a2], rest.
    split; [done|]. split; [apply lmatch_class; eauto|].
    apply lmatch_cat_cons. exists rest, [].
    split; [by rewrite app_nil_r|]. split; [by apply lmatch_star_class|].
    by apply lmatch_cat_nil.
Qed.

Lemma email_pattern_matches (s : text) j :
  matches s email_pattern 0 j
  <-> matches s (cat email_body) 0 j /\ at_eol s j = true.
Proof.
  change email_pattern with (cat ([Bos] ++ email_body ++ [Eol])).
  rewrite matches_cat_app. split.
  - intros (m & Hb & H). simpl in Hb. inversion Hb; subst.
    match goal with H1 : matches s Bos _ _ |- _ => inversion H1; subst end.
    match goal with H2 : matches s Eps _ _ |- _ => inversion H2; subst end.
    apply matches_cat_app in H as (m & Hm & He). simpl in He.
    inversion He; subst.
    match goal with H1 : matches s Eol _ _ |- _ => inversion H1; subst end.
    match goal with H2 : matches s Eps _ _ |- _ => inversion H2; subst end.
    done.
  - intros [Hm He]. exists 0%nat. split.
    + simpl. apply M_seq with 0%nat; constructor.
    + apply matches_cat_app. exists j. split; [done|].
      simpl. apply M_seq with j; by constructor.
Qed.

(** X6.  [validate_email] accepts exactly the texts made of a non-empty
    local part of letters, digits and [._%+-], an at sign, a non-empty
    domain of letters, digits, dots and hyphens, a dot, and at least two
    letters; after these one line feed is accepted too, and nothing else. *)
Theorem validate_email_spec (email : string) :
  validate_email email = true <->
  exists loc dom tld tail : text,
    of_string email = loc ++ "@"%char :: dom ++ "."%char :: tld ++ tail /\
    loc <> [] /\ forallb email_local loc = true /\
    dom <> [] /\ forallb email_domain dom = true /\
    (2 <= length tld)%nat /\ forallb is_alpha tld = true /\
    (tail = [] \/ tail = ["010"%char]).
Proof.
  unfold validate_email. rewrite re_match_spec.
  set (s := of_string email). split.
  - intros (j & Hm). apply email_pattern_matches in Hm as [Hm He].
    destruct (matches_bounds s _ _ _ Hm) as [_ Hj]. specialize (Hj ltac:(lia)).
    apply matches_lmatch in Hm; [|reflexivity|lia].
    apply email_language in Hm as (loc & dom & tld & Hu & Hrest).
    apply at_eol_drop in He; [|done].
    exists loc, dom, tld, (drop j s). split.
    + rewrite (slice_whole s j) at 1. rewrite Hu.
      rewrite <- !app_assoc. simpl. by rewrite <- !app_assoc.
    + destruct Hrest as (? & ? & ? & ? & ? & ?). done.
  - intros (loc & dom & tld & tail & Hs & Hl1 & Hl2 & Hd1 & Hd2 & Hlen & Htld & Htail).
    set (u := loc ++ "@"%char :: dom ++ "."%char :: tld).
    assert (Hu : lmatch (cat email_body) u).
    { apply email_language. exists loc, dom, tld. done. }
    assert (Hsu : s = [] ++ u ++ tail).
    { rewrite Hs. unfold u. simpl. rewrite <- !app_assoc. simpl.
      by rewrite <- !app_assoc. }
    exists (length u). apply email_pattern_matches. split.
    + rewrite Hsu. exact (lmatch_matches _ _ Hu [] tail).
    + apply at_eol_drop; [rewrite Hsu; simpl; rewrite length_app; lia|].
      rewrite Hsu. simpl. rewrite drop_app_length. done.
Qed.

Lemma validate_email_witness : validate_email "sam.lee@school-mail.org
" = true.
Proof.
  apply (proj2 (validate_email_spec "sam.lee@school-mail.org
")).
  exists (of_string "sam.lee"), (of_string "school-mail"), (of_string "org"),
    ["010"%char].
  repeat split; try reflexivity; try discriminate; [simpl; lia|by right].
Defined.

End EmailCheck.

(** ** Practice results *)

Section PracticeFacts.

Implicit Types (app : App) (r : progress_row) (rows : list progress_row).

Lemma same_topic_key student_id subject topic r :
  same_topic student_id subject topic r = true
  <-> progress_key r = (student_id, subject, topic).
Proof.
  unfold same_topic, progress_key.
  rewrite !andb_true_iff, Z.eqb_eq, !String.eqb_eq. split.
  - intros [[-> ->] ->]. done.
  - intros [= -> -> ->]. done.
Qed.

Lemma same_topic_other student_id subject topic k r :
  k <> (student_id, subject, topic) ->
  same_topic student_id subject topic r = true ->
  progress_key r <> k.
Proof. intros Hk Hr. apply same_topic_key in Hr. congruence. Qed.

Lemma find_update_same (found : progress_row -> bool) (f : progress_row -> progress_row) rows :
  (forall r, found (f r) = found r) ->
  find found (update_first found f rows) = f <$> find found rows.
Proof.
  intros Hf. induction rows as [|r rows IH]; simpl; [done|].
  destruct (found r) eqn:Er; simpl.
  - by rewrite Hf, Er.
  - by rewrite Er.
Qed.

Lemma find_update_other (found found' : progress_row -> bool)
    (f : progress_row -> progress_row) rows :
  (forall r, found r = true -> found' r = false /\ found' (f r) = false) ->
  find found' (update_first found f rows) = find found' rows.
Proof.
  intros Hf. induction rows as [|r rows IH]; simpl; [done|].
  destruct (found r) eqn:Er; simpl.
  - destruct (Hf r Er) as [-> ->]. done.
  - by rewrite IH.
Qed.

Lemma find_none_forall (found : progress_row -> bool) rows :
  find found rows = None -> Forall (fun r => found r = false) rows.
Proof.
  induction rows as [|r rows IH]; simpl; [constructor|].
  destruct (found r) eqn:Er; [discriminate|]. intros H. constructor; auto.
Qed.

Lemma find_app_new (found : progress_row -> bool) rows r :
  find found rows = None -> find found (rows ++ [r]) = if found r then Some r else None.
Proof.
  induction rows as [|r0 rows IH]; simpl; [done|].
  destruct (found r0); [discriminate|exact IH].
Qed.

Lemma find_app_other (found : progress_row -> bool) rows r :
  found r = false -> find found (rows ++ [r]) = find found rows.
Proof.
  intros Hr. induction rows as [|r0 rows IH]; simpl; [by rewrite Hr|].
  destruct (found r0); [done|exact IH].
Qed.

Lemma update_first_keys (found : progress_row -> bool) (f : progress_row -> progress_row) rows :
  (forall r, progress_key (f r) = progress_key r) ->
  map progress_key (update_first found f rows) = map progress_key rows.
Proof.
  intros Hf. induction rows as [|r rows IH]; simpl; [done|].
  destruct (found r); simpl; [by rewrite Hf|by rewrite IH].
Qed.

Lemma update_first_Forall (Q : progress_row -> Prop) (found : progress_row -> bool)
    (f : progress_row -> progress_row) rows :
  (forall r, Q r -> Q (f r)) -> Forall Q rows -> Forall Q (update_first found f rows).
Proof.
  intros Hf. induction 1 as [|r rows Hr Hrows IH]; simpl; [constructor|].
  destruct (found r); constructor; auto.
Qed.

Lemma update_first_length (found : progress_row -> bool) (f : progress_row -> progress_row) rows :
  length (update_first found f rows) = length rows.
Proof.
  induction rows as [|r rows IH]; simpl; [done|]. destruct (found r); simpl; auto.
Qed.

Lemma save_practice_row today app student_id subject topic question answer feedback :
  let app' :=
    snd (save_practice_result today app student_id subject topic question answer feedback) in
  let gain := if PracticeResult.is_correct feedback then 1 else 0 in
  exists row',
    progress_of app' student_id subject topic = Some row' /\
    last_feedback row' = feedback /\
    match progress_of app student_id subject topic with
    | Some row =>
        attempts row' = attempts row + 1 /\
        correct_attempts row' = correct_attempts row + gain /\
        length (student_progress app') = length (student_progress app)
    | None =>
        attempts row' = 1 /\ correct_attempts row' = gain /\
        length (student_progress app') = S (length (student_progress app))
    end.
Proof.
  intros app' gain. subst app'. unfold progress_of, save_practice_result.
  simpl. fold gain.
  destruct (find (same_topic student_id subject topic) (student_progress app))
    as [row|] eqn:E.
  - rewrite find_update_same, E by done. simpl. eexists. split; [done|].
    simpl. rewrite update_first_length. done.
  - rewrite find_app_new by done. unfold same_topic. simpl.
    rewrite Z.eqb_refl, !String.eqb_refl. simpl. eexists. split; [done|].
    simpl. rewrite length_app. simpl. repeat split. lia.
Qed.

(** X7.  [save_practice_result] counts the attempt on the row of the
    student, subject and topic: a row that exists gets one more attempt,
    one more correct attempt exactly when the feedback is classified as
    correct, and the new feedback, and no row is added; when there is no
    row, one is added with 1 attempt.  The call always returns [True]. *)
Theorem save_practice_counts today app student_id subject topic question answer feedback :
  let app' :=
    snd (save_practice_result today app student_id subject topic question answer feedback) in
  let gain := if PracticeResult.is_correct feedback then 1 else 0 in
  fst (save_practice_result today app student_id subject topic question answer feedback)
    = true /\
  exists row',
    progress_of app' student_id subject topic = Some row' /\
    last_feedback row' = feedback /\
    match progress_of app student_id subject topic with
    | Some row =>
        attempts row' = attempts row + 1 /\
        correct_attempts row' = correct_attempts row + gain /\
        length (student_progress app') = length (student_progress app)
    | None =>
        attempts row' = 1 /\ correct_attempts row' = gain /\
        length (student_progress app') = S (length (student_progress app))
    end.
Proof.
  intros app' gain. split; [done|]. apply save_practice_row.
Qed.

(** X8.  [save_practice_result] keeps the practice table sound: the
    counters of every row stay in range (0 <= correct attempts <= attempts)
    and there is still one row at most for a student, subject and topic. *)
Theorem save_practice_keeps_table today app student_id subject topic question answer feedback :
  progress_table_ok app ->
  progress_table_ok
    (snd (save_practice_result today app student_id subject topic question answer feedback)).
Proof.
  intros [Hok Hnd]. unfold progress_table_ok, save_practice_result. simpl.
  destruct (find (same_topic student_id subject topic) (student_progress app))
    as [row|] eqn:E.
  - split.
    + apply update_first_Forall; [|done]. unfold row_ok. simpl. intros r Hr.
      destruct (PracticeResult.is_correct feedback); lia.
    + by rewrite update_first_keys.
  - split.
    + apply Forall_app. split; [done|]. constructor; [|constructor].
      unfold row_ok. simpl. destruct (PracticeResult.is_correct feedback); lia.
    + rewrite map_app. simpl. apply NoDup_app. split; [done|].
      split; [|apply NoDup_singleton].
      intros k Hk Hk'. apply list_elem_of_singleton in Hk' as ->.
      apply list_elem_of_In, in_map_iff in Hk as (r & Hkey & Hin).
      apply find_none_forall in E. rewrite Forall_forall in E.
      apply list_elem_of_In in Hin. specialize (E r Hin).
      apply same_topic_key in Hkey. unfold progress_key in Hkey. simpl in Hkey.
      congruence.
Qed.

Lemma save_practice_keeps_table_witness :
  let app' := snd (save_practice_result 101 classroom 7
                     "Maths" "Fractions" "1/2 + 1/4 ?" "3/4" "CORRECT
Well done!") in
  progress_table_ok app' /\
  student_progress app'
  = [Progress 7 (Some "Grade 5") "Maths" "Fractions" 5 4 "CORRECT
Well done!";
     Progress 7 (Some "Grade 5") "Maths" "Decimals" 2 0 "INCORRECT";
     Progress 8 (Some "Grade 5") "Maths" "Fractions" 1 1 "CORRECT"].
Proof.
  split; [|by vm_compute].
  apply (save_practice_keeps_table 101 classroom 7 "Maths" "Fractions" "1/2 + 1/4 ?" "3/4").
  split.
  - repeat (constructor; [unfold row_ok; simpl; lia|]). constructor.
  - apply (bool_decide_unpack _). by vm_compute.
Defined.

(** X9.  [save_practice_result] touches no other row: the row that the
    code reads for any other student, subject or topic is the one it read
    before the call. *)
Theorem save_practice_other_rows today app student_id subject topic question answer
    feedback student_id' subject' topic' :
  (student_id', subject', topic') <> (student_id, subject, topic) ->
  progress_of
    (snd (save_practice_result today app student_id subject topic question answer feedback))
    student_id' subject' topic'
  = progress_of app student_id' subject' topic'.
Proof.
  intros Hne. unfold progress_of, save_practice_result. simpl.
  assert (Hother : forall r,
            progress_key r = (student_id, subject, topic) ->
            same_topic student_id' subject' topic' r = false).
  { intros r Hr. destruct (same_topic student_id' subject' topic' r) eqn:E'; [|done].
    apply same_topic_key in E'. congruence. }
  destruct (find (same_topic student_id subject topic) (student_progress app))
    as [row|] eqn:E.
  - apply find_update_other. intros r Hr. apply same_topic_key in Hr.
    split; apply Hother; done.
  - apply find_app_other. by apply Hother.
Qed.

Lemma save_practice_other_rows_witness :
  let app' := snd (save_practice_result 101 classroom 7
                     "Maths" "Fractions" "1/2 + 1/4 ?" "3/4" "INCORRECT") in
  progress_of app' 7 "Maths" "Decimals" = progress_of classroom 7 "Maths" "Decimals" /\
  progress_of classroom 7 "Maths" "Decimals"
  = Some (Progress 7 (Some "Grade 5") "Maths" "Decimals" 2 0 "INCORRECT") /\
  progress_of app' 7 "Maths" "Fractions"
  = Some (Progress 7 (Some "Grade 5") "Maths" "Fractions" 5 3 "INCORRECT").
Proof.
  split; [|split; by vm_compute].
  apply (save_practice_other_rows 101 classroom 7 "Maths" "Fractions" "1/2 + 1/4 ?" "3/4"
           "INCORRECT" 7 "Maths" "Decimals").
  discriminate.
Defined.

(** X10.  What the practice page shows is what is stored.  For every
    outcome of the model call, [evaluate_answer] followed by
    [save_practice_result] on its feedback gives the student with a profile
    5 points when [evaluate_answer] said correct and 2 points otherwise, and
    counts a correct attempt in exactly the first case; a failed model call
    counts as an incorrect attempt worth 2 points. *)
Theorem practice_points_follow_verdict today app student_id subject topic question answer
    response p :
  student_gamification (ledger app) !! student_id = Some p ->
  let result := evaluate_answer response in
  let app' :=
    snd (save_practice_result today app student_id subject topic question answer
           (fst result)) in
  total_of (ledger app') student_id
    = Some (total_points p + (if snd result then 5 else 2)) /\
  (response = None -> snd result = false) /\
  exists row',
    progress_of app' student_id subject topic = Some row' /\
    correct_attempts row'
    = match progress_of app student_id subject topic with
      | Some row => correct_attempts row
      | None => 0
      end + (if snd result then 1 else 0).
Proof.
  intros Hp result app'.
  assert (Hsame : PracticeResult.is_correct (fst result) = snd result).
  { subst result. destruct response as [feedback|]; simpl; [reflexivity|].
    by vm_compute. }
  split; [|split].
  - subst app'. unfold save_practice_result. simpl. rewrite Hsame.
    unfold total_of. rewrite (add_points_row _ _ _ _ _ _ Hp). simpl. done.
  - intros ->. done.
  - destruct (save_practice_row today app student_id subject topic question answer
                (fst result)) as (row' & Hrow' & _ & Hcount).
    fold app' in Hrow', Hcount. rewrite Hsame in Hcount.
    exists row'. split; [done|].
    destruct (progress_of app student_id subject topic); lia.
Qed.

Lemma practice_points_follow_verdict_witness :
  let app := MkApp Scenario.newcomer_db ∅ [] ∅ in
  let result := evaluate_answer None in
  total_of (ledger (snd (save_practice_result 101 app 7 "Maths" "Fractions"
                           "1/2 + 1/4 ?" "3/4" (fst result)))) 7
  = Some (95 + 2).
Proof.
  intros app result.
  apply (practice_points_follow_verdict 101 app 7 "Maths" "Fractions" "1/2 + 1/4 ?" "3/4"
           None (Profile 95 1 6 6 (Some 100))).
  reflexivity.
Defined.

End PracticeFacts.

(** ** Curricula *)

Section CurriculumFacts.

(** X11.  A curriculum that is saved is the one that is read back for its
    class and subject, a second save replaces it, and the curricula of the
    other classes and subjects are not touched. *)
Theorem curriculum_round_trip (app : App) (class_name subject text text2 : string) :
  let app1 := snd (save_curriculum app class_name subject text) in
  get_curriculum app1 class_name subject = Some text /\
  get_curriculum (snd (save_curriculum app1 class_name subject text2)) class_name subject
    = Some text2 /\
  forall class_name' subject',
    (class_name', subject') <> (class_name, subject) ->
    get_curriculum app1 class_name' subject' = get_curriculum app class_name' subject'.
Proof.
  intros app1. unfold get_curriculum. simpl. repeat split.
  - apply lookup_insert_eq.
  - apply lookup_insert_eq.
  - intros class_name' subject' Hne. by apply lookup_insert_ne.
Qed.

Lemma curriculum_round_trip_witness :
  let app1 := snd (save_curriculum classroom "Grade 5" "Maths" "Fractions; decimals") in
  get_curriculum app1 "Grade 5" "Science" = get_curriculum classroom "Grade 5" "Science" /\
  get_curriculum classroom "Grade 5" "Science" = Some "Cells; plants" /\
  get_curriculum classroom "Grade 5" "Maths" = None /\
  get_curriculum app1 "Grade 5" "Maths" = Some "Fractions; decimals".
Proof.
  intros app1. split; [|split; [|split]].
  - apply (proj2 (proj2 (curriculum_round_trip classroom "Grade 5" "Maths"
                           "Fractions; decimals" ""))).
    discriminate.
  - by vm_compute.
  - by vm_compute.
  - apply (proj1 (curriculum_round_trip classroom "Grade 5" "Maths"
                    "Fractions; decimals" "")).
Defined.

(** X12.  [add_subject_for_class] never replaces a curriculum: for a class
    and subject that have one it answers (False, "This subject already
    exists for your class.") and leaves the store as it was; otherwise it
    stores the placeholder text and answers (True, "Subject added
    successfully!"), after which a second call is refused. *)
Theorem add_subject_keeps_curriculum (app : App) (class_name subject : string) :
  match get_curriculum app class_name subject with
  | Some text =>
      add_subject_for_class app class_name subject
      = ((false, "This subject already exists for your class."), app)
  | None =>
      fst (add_subject_for_class app class_name subject)
        = (true, "Subject added successfully!") /\
      get_curriculum (snd (add_subject_for_class app class_name subject)) class_name subject
        = Some "Curriculum pending - Please contact your teacher to add content." /\
      fst (add_subject_for_class (snd (add_subject_for_class app class_name subject))
             class_name subject)
        = (false, "This subject already exists for your class.")
  end.
Proof.
  unfold get_curriculum, add_subject_for_class.
  destruct (curriculum app !! (class_name, subject)) as [text|] eqn:E; simpl; [done|].
  rewrite lookup_insert_eq. done.
Qed.

End CurriculumFacts.

(** ** Quiz marking *)

Section QuizFacts.

Variables (responses : nat -> option string) (student_answers : gmap string string).

Lemma mark_from_range questions :
  Forall (fun q => 0 <= marks_of q) questions ->
  forall i total_score feedback_list total' feedback',
    mark_from responses student_answers i questions total_score feedback_list
      = Some (total', feedback') ->
    total_score <= total' <= total_score + total_marks questions.
Proof.
  induction 1 as [|q rest Hq _ IH]; intros i total_score feedback_list total' feedback';
    simpl.
  - intros [= <- <-]. unfold total_marks. simpl. lia.
  - unfold total_marks in *. simpl.
    assert (Hhalf : 0 <= marks_of q / 2 <= marks_of q).
    { split; [apply Z.div_pos; lia|]. apply Z.div_le_upper_bound; lia. }
    destruct (q_type q) as [type|]; [|discriminate].
    destruct (String.eqb type "mcq").
    + destruct (String.eqb _ _); intros H; apply IH in H; lia.
    + destruct (q_question q); [|discriminate].
      destruct (snd (evaluate_answer (responses i))); intros H; apply IH in H; lia.
Qed.

Lemma total_marks_nonneg questions :
  Forall (fun q => 0 <= marks_of q) questions -> 0 <= total_marks questions.
Proof. unfold total_marks. induction 1; simpl; lia. Qed.

(** X13.  When no question carries negative marks, the score of
    [auto_evaluate_quiz] is between 0 and the sum of the marks of the
    questions, whatever the answers and whatever the model replies. *)
Theorem quiz_score_range questions :
  Forall (fun q => 0 <= marks_of q) questions ->
  0 <= fst (auto_evaluate_quiz responses questions student_answers)
    <= total_marks questions.
Proof.
  intros Hq. unfold auto_evaluate_quiz.
  destruct (mark_from responses student_answers 0 questions 0 [])
    as [[total' feedback']|] eqn:E; simpl.
  - apply (mark_from_range questions Hq) in E. lia.
  - split; [lia|]. by apply total_marks_nonneg.
Qed.

Lemma mark_from_unmarkable questions :
  Exists (fun q => markable q = false) questions ->
  forall i total_score feedback_list,
    mark_from responses student_answers i questions total_score feedback_list = None.
Proof.
  induction 1 as [q rest Hq|q rest _ IH]; intros i total_score feedback_list; simpl.
  - unfold markable in Hq. destruct (q_type q) as [type|]; [|done].
    destruct (String.eqb type "mcq"); [discriminate|].
    destruct (q_question q); [discriminate|done].
  - destruct (q_type q) as [type|]; [|done].
    destruct (String.eqb type "mcq").
    + destruct (String.eqb _ _); apply IH.
    + destruct (q_question q); [|done].
      destruct (snd (evaluate_answer (responses i))); apply IH.
Qed.

(** X14.  One question without a 'type' key, or an open question without
    a 'question' key, voids the marking of the whole quiz: the result is
    score 0 with the feedback "Evaluation failed", whatever the other
    questions and answers are. *)
Theorem quiz_one_bad_question_voids_all questions :
  Exists (fun q => markable q = false) questions ->
  auto_evaluate_quiz responses questions student_answers = (0, "Evaluation failed").
Proof.
  intros H. unfold auto_evaluate_quiz. by rewrite mark_from_unmarkable.
Qed.

Lemma mark_from_partial questions :
  Forall (fun q => markable q = true) questions ->
  Forall (fun q => 0 <= marks_of q) questions ->
  forall i total_score feedback_list,
    exists total' feedback',
      mark_from responses student_answers i questions total_score feedback_list
        = Some (total', feedback') /\
      total_score + partial_credit questions <= total' /\
      length feedback' = (length feedback_list + length questions)%nat.
Proof.
  induction 1 as [|q rest Hq _ IH]; intros Hm i total_score feedback_list.
  - exists total_score, feedback_list. unfold partial_credit. simpl.
    repeat split; lia.
  - apply Forall_cons in Hm as [Hm0 Hm]. specialize (IH Hm).
    unfold partial_credit in *. simpl. unfold is_mcq, markable in *.
    assert (Hhalf : 0 <= marks_of q / 2 <= marks_of q).
    { split; [apply Z.div_pos; lia|]. apply Z.div_le_upper_bound; lia. }
    destruct (q_type q) as [type|]; [|discriminate].
    destruct (String.eqb type "mcq"); simpl in Hq.
    + destruct (String.eqb _ _);
        match goal with |- context [mark_from _ _ ?j rest ?t ?f] =>
          destruct (IH j t f) as (total' & feedback' & -> & Hle & Hlen) end;
        exists total', feedback'; rewrite length_app in Hlen; simpl in Hlen;
        repeat split; lia.
    + destruct (q_question q); [|discriminate].
      destruct (snd (evaluate_answer (responses i)));
        match goal with |- context [mark_from _ _ ?j rest ?t ?f] =>
          destruct (IH j t f) as (total' & feedback' & -> & Hle & Hlen) end;
        exists total', feedback'; rewrite length_app in Hlen; simpl in Hlen;
        repeat split; lia.
Qed.

(** X15.  Open questions are never worth less than half their marks: when
    every question can be marked and none carries negative marks, the score
    is at least the sum, over the questions that are not multiple choice,
    of half their marks rounded down, whatever the student answered and
    even when every model call fails. *)
Theorem quiz_partial_credit questions :
  Forall (fun q => markable q = true) questions ->
  Forall (fun q => 0 <= marks_of q) questions ->
  partial_credit questions
    <= fst (auto_evaluate_quiz responses questions student_answers).
Proof.
  intros Hq Hm. unfold auto_evaluate_quiz.
  destruct (mark_from_partial questions Hq Hm 0%nat 0 [])
    as (total' & feedback' & -> & Hle & _).
  simpl. lia.
Qed.

End QuizFacts.

Lemma quiz_score_range_witness :
  0 <= fst (auto_evaluate_quiz (fun _ => Some "INCORRECT")
              [Question (Some "mcq") (Some "2 + 2 ?") (Some "B") None (Some 2);
               Question (Some "short_answer") (Some "Why ?") None (Some "Because") (Some 5)]
              {[ "0" := "b"; "1" := "" ]})
    <= 2 + (5 + 0).
Proof.
  apply (quiz_score_range (fun _ => Some "INCORRECT") {[ "0" := "b"; "1" := "" ]}).
  repeat (constructor; [unfold marks_of; simpl q_marks; lia|]). constructor.
Defined.

Lemma quiz_one_bad_question_witness :
  auto_evaluate_quiz (fun _ => Some "CORRECT")
    [Question (Some "mcq") (Some "2 + 2 ?") (Some "B") None (Some 2);
     Question None (Some "Why ?") None (Some "Because") (Some 5)]
    {[ "0" := "B" ]}
  = (0, "Evaluation failed").
Proof.
  apply quiz_one_bad_question_voids_all.
  apply Exists_cons_tl, Exists_cons_hd. reflexivity.
Defined.

Lemma quiz_partial_credit_witness :
  let questions :=
    [Question (Some "mcq") (Some "2 + 2 ?") (Some "B") None (Some 2);
     Question (Some "short_answer") (Some "Why ?") None (Some "Because") (Some 5)] in
  partial_credit questions <= fst (auto_evaluate_quiz (fun _ => None) questions ∅).
Proof.
  intros questions. apply (quiz_partial_credit (fun _ => None) ∅ questions).
  - repeat (constructor; [reflexivity|]). constructor.
  - repeat (constructor; [unfold marks_of; simpl q_marks; lia|]). constructor.
Defined.

(** ** More on the ledger *)

Section LedgerFrame.

Implicit Types (db : Db) (p : profile).

Lemma filter_map_none {A B : Type} (P : B -> Prop) `{!forall b, Decision (P b)}
    (f : A -> B) (l : list A) :
  (forall e, ~ P (f e)) -> filter P (map f l) = [].
Proof.
  intros Hno. induction l as [|e l IH]; simpl; [done|].
  by rewrite filter_cons_False by apply Hno.
Qed.

(** X16.  An [add_points] call for one student leaves every other student
    as they were: their profile, their badge rows and their notifications. *)
Theorem add_points_frame today db student_id points reason other :
  other <> student_id ->
  let db' := snd (add_points today db student_id points reason) in
  student_gamification db' !! other = student_gamification db !! other /\
  (forall name, badge_rows db' other name = badge_rows db other name) /\
  notifications_of_user db' other = notifications_of_user db other.
Proof.
  intros Hne db'. subst db'. split; [by apply add_points_other|].
  destruct (add_points_badges today db student_id points reason)
    as (l & Hb & Hn & _ & _).
  unfold badge_rows, notifications_of_user. split.
  - intros name. rewrite Hb, filter_app.
    rewrite (filter_map_none _ (badge_of student_id)); [by rewrite app_nil_r|].
    intros e [Hs _]. simpl in Hs. congruence.
  - rewrite Hn, filter_app.
    rewrite (filter_map_none _ (notification_of student_id)); [by rewrite app_nil_r|].
    intros e Hs. simpl in Hs. congruence.
Qed.

Lemma add_points_frame_witness :
  let db' := snd (add_points 101 two_students_db 7 10 "quiz") in
  (student_gamification db' !! 8 = student_gamification two_students_db !! 8 /\
   (forall name, badge_rows db' 8 name = badge_rows two_students_db 8 name) /\
   notifications_of_user db' 8 = notifications_of_user two_students_db 8) /\
  student_gamification two_students_db !! 8 = Some (Profile 120 2 7 7 (Some 100)) /\
  student_gamification db' !! 7 = Some (Profile 105 2 7 7 (Some 101)) /\
  length (badges db') = 4%nat /\ length (notifications db') = 4%nat /\
  length (notifications_of_user two_students_db 8) = 2%nat.
Proof.
  split; [|by vm_compute].
  apply (add_points_frame 101 two_students_db 7 10 "quiz" 8). lia.
Defined.

(** X17.  [_initialize_gamification] creates the profile of a student who
    has none and never resets one: with a profile in place the store is
    left as it was, so calling it twice is calling it once; badges and
    notifications are not touched. *)
Theorem initialize_gamification_once db student_id :
  match student_gamification db !! student_id with
  | Some p => snd (_initialize_gamification db student_id) = db
  | None =>
      student_gamification (snd (_initialize_gamification db student_id)) !! student_id
      = Some default_profile
  end /\
  snd (_initialize_gamification (snd (_initialize_gamification db student_id)) student_id)
    = snd (_initialize_gamification db student_id) /\
  badges (snd (_initialize_gamification db student_id)) = badges db /\
  notifications (snd (_initialize_gamification db student_id)) = notifications db.
Proof.
  destruct (student_gamification db !! student_id) as [p|] eqn:E.
  - assert (Hinit : _initialize_gamification db student_id = (true, db))
      by (unfold _initialize_gamification; by rewrite E).
    rewrite !Hinit. simpl. rewrite Hinit. done.
  - assert (Hinit : _initialize_gamification db student_id
                    = (true, MkDb (<[student_id := default_profile]> (student_gamification db))
                               (badges db) (notifications db)))
      by (unfold _initialize_gamification; by rewrite E).
    rewrite !Hinit. simpl. rewrite lookup_insert_eq. repeat split.
    unfold _initialize_gamification. simpl. by rewrite lookup_insert_eq.
Qed.

Lemma run_snoc db cs c : run db (cs ++ [c]) = do_call (run db cs) c.
Proof. unfold run. by rewrite fold_left_app. Qed.

Lemma daily_streak db student_id points :
  forall p day,
    student_gamification db !! student_id = Some p ->
    last_activity_date p = Some day ->
    exists p',
      student_gamification (run db (daily_calls student_id (day + 1) points)) !! student_id
        = Some p' /\
      current_streak p' = current_streak p + Z.of_nat (length points) /\
      last_activity_date p' = Some (day + Z.of_nat (length points)).
Proof.
  revert db. induction points as [|pt points IH]; intros db p day Hp Hlast; simpl.
  - exists p. rewrite !Z.add_0_r. done.
  - pose proof (add_points_row (day + 1) db student_id pt "Practice" p Hp) as Hrow.
    rewrite Hlast in Hrow. unfold new_streak in Hrow.
    replace (day + 1 - day) with 1 in Hrow by lia. simpl in Hrow.
    destruct (IH _ _ (day + 1) Hrow eq_refl) as (p' & Hp' & Hs & Hl).
    exists p'. split; [exact Hp'|]. simpl in Hs. split; lia || (rewrite Hl; f_equal; lia).
Qed.

(** X18.  Points earned on consecutive days build the streak day by day:
    after one [add_points] call on each of the n days that follow the last
    activity, the streak is n higher; and a student whose streak reaches 7
    in this way holds the "Week Warrior" badge. *)
Theorem daily_activity_builds_streak db student_id points p day :
  student_gamification db !! student_id = Some p ->
  last_activity_date p = Some day ->
  let db' := run db (daily_calls student_id (day + 1) points) in
  streak_of db' student_id = Some (current_streak p + Z.of_nat (length points)) /\
  (points <> [] -> 7 <= current_streak p + Z.of_nat (length points) ->
   _has_badge db' student_id "Week Warrior" = true).
Proof.
  intros Hp Hlast db'. subst db'.
  destruct (daily_streak db student_id points p day Hp Hlast) as (p' & Hp' & Hs & _).
  split; [unfold streak_of; rewrite Hp'; simpl; by f_equal|].
  intros Hne H7.
  assert (Hsnoc : exists cs c, daily_calls student_id (day + 1) points = cs ++ [c]
                              /\ call_student_id c = student_id).
  { clear -Hne. generalize (day + 1). induction points as [|pt points IH]; [done|].
    intros d. destruct points as [|pt' points].
    - exists [], (Call d student_id pt "Practice"). done.
    - destruct (IH ltac:(done) (d + 1)) as (cs & c & Hcs & Hc).
      exists (Call d student_id pt "Practice" :: cs), c. simpl in *. by rewrite Hcs. }
  destruct Hsnoc as (cs & c & Hcs & Hc). rewrite Hcs, run_snoc in *.
  unfold do_call in *. rewrite Hc in *.
  apply (add_points_holds _ _ _ _ _ p'); [exact Hp'|].
  unfold threshold_met. simpl. apply Z.leb_le. lia.
Qed.

Lemma daily_activity_witness :
  let db' := run Scenario.newcomer_db (daily_calls 7 (100 + 1) [2]) in
  streak_of db' 7 = Some (6 + 1) /\
  _has_badge db' 7 "Week Warrior" = true.
Proof.
  destruct (daily_activity_builds_streak Scenario.newcomer_db 7 [2]
              (Profile 95 1 6 6 (Some 100)) 100 eq_refl eq_refl) as [Hs Hb].
  split; [exact Hs|]. apply Hb; [discriminate|simpl; lia].
Defined.

End LedgerFrame.

(** ** Multiple-choice quizzes *)

Section McqFacts.

Variable student_answers : gmap string string.

Lemma mark_from_mcq_any responses1 responses2 questions :
  Forall (fun q => is_mcq q = true) questions ->
  forall i total_score feedback_list,
    mark_from responses1 student_answers i questions total_score feedback_list
    = mark_from responses2 student_answers i questions total_score feedback_list.
Proof.
  induction 1 as [|q rest Hq _ IH]; intros i total_score feedback_list; simpl; [done|].
  unfold is_mcq in Hq. destruct (q_type q) as [type|]; [|done].
  rewrite Hq. destruct (String.eqb (lower_str _) _); apply IH.
Qed.

Lemma mark_from_mcq_full responses questions :
  Forall (fun q => is_mcq q = true) questions ->
  forall i total_score feedback_list,
    (forall k q, questions !! k = Some q ->
                 lower_str (answer_at student_answers (i + k))
                 = lower_str (correct_answer_of q)) ->
    exists feedback',
      mark_from responses student_answers i questions total_score feedback_list
      = Some (total_score + total_marks questions, feedback').
Proof.
  induction 1 as [|q rest Hq _ IH]; intros i total_score feedback_list Hans; simpl.
  - exists feedback_list. unfold total_marks. simpl. by rewrite Z.add_0_r.
  - unfold is_mcq in Hq. destruct (q_type q) as [type|]; [|done]. rewrite Hq.
    pose proof (Hans 0%nat q eq_refl) as H0. rewrite Nat.add_0_r in H0.
    unfold answer_at in H0. rewrite H0, String.eqb_refl.
    match goal with |- context [mark_from _ _ ?j rest ?t ?f] =>
      destruct (IH j t f) as (feedback' & ->) end.
    + intros k q' Hk. specialize (Hans (S k) q' Hk).
      by replace (i + S k)%nat with (S i + k)%nat in Hans by lia.
    + exists feedback'. unfold total_marks. simpl. do 2 f_equal. lia.
Qed.

(** X19.  A quiz of multiple-choice questions is marked without the
    model: the result is the same whatever the model would reply.  Answers
    are compared without regard to letter case, and when every answer
    agrees with the expected one in that sense the score is the sum of the
    marks. *)
Theorem mcq_quiz_marking responses questions :
  Forall (fun q => is_mcq q = true) questions ->
  (forall responses',
     auto_evaluate_quiz responses' questions student_answers
     = auto_evaluate_quiz responses questions student_answers) /\
  ((forall k q, questions !! k = Some q ->
                lower_str (answer_at student_answers k) = lower_str (correct_answer_of q)) ->
   fst (auto_evaluate_quiz responses questions student_answers) = total_marks questions).
Proof.
  intros Hq. split.
  - intros responses'. unfold auto_evaluate_quiz.
    by rewrite (mark_from_mcq_any responses' responses questions Hq).
  - intros Hans. unfold auto_evaluate_quiz.
    destruct (mark_from_mcq_full responses questions Hq 0%nat 0 [] Hans)
      as (feedback' & ->).
    done.
Qed.

End McqFacts.

Lemma mcq_quiz_marking_witness :
  let questions :=
    [Question (Some "mcq") (Some "2 + 2 ?") (Some "B") None (Some 2);
     Question (Some "mcq") (Some "Capital of France ?") None (Some "Paris") None] in
  let student_answers : gmap string string := {[ "0" := "b"; "1" := "PARIS" ]} in
  fst (auto_evaluate_quiz (fun _ => None) questions student_answers) = total_marks questions.
Proof.
  intros questions student_answers.
  apply (mcq_quiz_marking student_answers (fun _ => None) questions).
  - repeat (constructor; [reflexivity|]). constructor.
  - subst questions. intros [|[|k]] q Hk; simpl in Hk; simplify_eq; by vm_compute.
Defined.

(** ** The topics of the extractor *)

Section TopicFacts.

Lemma lstrip_split (x : text) :
  exists sp, x = sp ++ lstrip x /\ forallb is_space sp = true.
Proof.
  induction x as [|c x (sp & Hx & Hsp)]; simpl; [by exists []|].
  destruct (is_space c) eqn:Ec.
  - exists (c :: sp). simpl. rewrite Ec, Hsp. split; [by f_equal|done].
  - by exists [].
Qed.

Lemma lstrip_head (x : text) c rest : lstrip x = c :: rest -> is_space c = false.
Proof.
  induction x as [|d x IH]; simpl; [discriminate|].
  destruct (is_space d) eqn:Ed; [exact IH|]. by intros [= <- _].
Qed.

Lemma rstrip_split (y : text) :
  exists sp, y = rstrip y ++ sp /\ forallb is_space sp = true.
Proof.
  unfold rstrip. destruct (lstrip_split (rev y)) as (sp & Hy & Hsp).
  exists (rev sp). split.
  - rewrite <- rev_app_distr, <- Hy. by rewrite rev_involutive.
  - rewrite forallb_forall in *. intros c Hc. apply Hsp. by apply in_rev.
Qed.

Lemma last_rev (l : text) : last (rev l) = head l.
Proof. destruct l as [|c l]; simpl; [done|]. apply last_snoc. Qed.

Lemma rstrip_last (y : text) c : last (rstrip y) = Some c -> is_space c = false.
Proof.
  unfold rstrip. rewrite last_rev.
  destruct (lstrip (rev y)) as [|d rest] eqn:E; simpl; [discriminate|].
  intros [= <-]. by apply lstrip_head in E.
Qed.

Lemma strip_head (x : text) c : head (strip x) = Some c -> is_space c = false.
Proof.
  unfold strip. destruct (rstrip_split (lstrip x)) as (sp & Hy & _).
  destruct (rstrip (lstrip x)) as [|d rest]; simpl; [discriminate|].
  intros [= <-]. simpl in Hy. by apply lstrip_head in Hy.
Qed.

Lemma strip_last (x : text) c : last (strip x) = Some c -> is_space c = false.
Proof. apply rstrip_last. Qed.

Lemma strip_In (x : text) c : In c (strip x) -> In c x.
Proof.
  unfold strip. intros Hc.
  destruct (rstrip_split (lstrip x)) as (sp & Hy & _).
  destruct (lstrip_split x) as (sp' & Hx & _).
  rewrite Hx, Hy. apply in_or_app. right. apply in_or_app. by left.
Qed.

Lemma sub_from_In r (s : text) fuel i c : In c (sub_from r s fuel i) -> In c s.
Proof.
  revert i. induction fuel as [|fuel IH]; intros i; simpl; [done|].
  assert (Hemit : In c (match s !! i with
                        | Some d => d :: sub_from r s fuel (S i)
                        | None => []
                        end) -> In c s).
  { destruct (s !! i) as [d|] eqn:E; simpl; [|done].
    intros [<-|H]; [|by eapply IH].
    apply list_elem_of_In. by eapply list_elem_of_lookup_2. }
  destruct (mt s r accept i None) as [[j g]|]; [|exact Hemit].
  destruct (i <? j)%nat; [apply IH|exact Hemit].
Qed.

Lemma split_lines_no_newline (s : text) line :
  In line (split_lines s) -> ~ In "010"%char line.
Proof.
  revert line. induction s as [|c s IH]; intros line; simpl.
  - intros [<-|[]]. simpl. tauto.
  - destruct (Ascii.eqb_spec c "010"%char) as [->|Hc].
    + intros [<-|H]; [simpl; tauto|by apply IH].
    + destruct (split_lines s) as [|l ls] eqn:E.
      * intros [<-|[]]. simpl. intros [?|[]]. done.
      * intros [<-|H].
        -- simpl. intros [?|Hin]; [done|]. apply (IH l); [by left|done].
        -- apply IH. by right.
Qed.

Lemma cleaned_In (line : text) c : In c (cleaned line) -> In c line.
Proof.
  unfold cleaned, re_sub_delete. intros H.
  apply strip_In, sub_from_In, strip_In in H. exact H.
Qed.

Lemma line_step_topic (line topic : text) :
  line_step line = Append topic ->
  topic = cleaned line /\ topic <> [] /\ (len topic < 100)%nat.
Proof.
  unfold line_step.
  repeat match goal with
         | |- context [if ?b then _ else _] => destruct b eqn:?
         end; try discriminate.
  intros [= <-].
  match goal with H : negb (is_empty _) && _ = true |- _ =>
    apply andb_true_iff in H as [Hne Hlen] end.
  split; [done|]. split.
  - destruct (cleaned line); [discriminate|done].
  - by apply Nat.ltb_lt.
Qed.

Lemma scan_In (lines : list text) topic :
  In topic (scan lines) -> exists line, In line lines /\ line_step line = Append topic.
Proof.
  induction lines as [|line rest IH]; simpl; [done|].
  destruct (line_step line) eqn:E.
  - intros H. destruct (IH H) as (l & Hl & Hs). exists l. split; [by right|done].
  - done.
  - intros [<-|H].
    + exists line. split; [by left|done].
    + destruct (IH H) as (l & Hl & Hs). exists l. split; [by right|done].
Qed.

(** X20.  Every topic that [_extract_weak_areas_from_analysis] returns is
    a usable label: it is not empty, has fewer than 100 characters (its
    bytes may be more), starts and ends with a character that is not ASCII
    white space, and contains no line feed. *)
Theorem extracted_topics_are_labels (analysis_text : string) (topics : list string)
    (topic : string) :
  _extract_weak_areas_from_analysis analysis_text = Some topics ->
  In topic topics ->
  let t := of_string topic in
  t <> [] /\ (len t < 100)%nat /\
  (forall c, head t = Some c -> is_space c = false) /\
  (forall c, last t = Some c -> is_space c = false) /\
  ~ In "010"%char t.
Proof.
  unfold _extract_weak_areas_from_analysis.
  destruct (re_search improvement_section (of_string analysis_text)) as [m|];
    [|by intros [= <-] []].
  destruct (group1 (of_string analysis_text) m) as [section|]; [|discriminate].
  destruct (is_empty (strip section)); [by intros [= <-] []|].
  intros [= <-] Hin. apply in_map_iff in Hin as (t0 & <- & Hin).
  unfold of_string, to_string. rewrite String.list_ascii_of_string_of_list_ascii.
  apply scan_In in Hin as (line & Hline & Hstep).
  apply line_step_topic in Hstep as (-> & Hne & Hlen).
  simpl. repeat split; try done.
  - intros c. apply strip_head.
  - intros c. apply strip_last.
  - intros Hnl. apply cleaned_In in Hnl.
    by apply (split_lines_no_newline _ _ Hline).
Qed.

Lemma extracted_topics_witness :
  let t := of_string "Décimales périodiques" in
  t <> [] /\ (len t < 100)%nat /\
  (forall c, head t = Some c -> is_space c = false) /\
  (forall c, last t = Some c -> is_space c = false) /\
  ~ In "010"%char t.
Proof.
  apply (extracted_topics_are_labels "Areas for improvement–
• Adding fractions
•   Décimales périodiques
***
You're doing great!" ["Adding fractions"; "Décimales périodiques"]
           "Décimales périodiques").
  - by vm_compute.
  - right. by left.
Defined.

End TopicFacts.

(** ** The verdict words of the evaluation prompt *)

Section VerdictWords.

Lemma of_string_app (a b : string) : of_string (a +:+ b) = of_string a ++ of_string b.
Proof. unfold of_string. induction a as [|c a IH]; simpl; [done|]. by rewrite IH. Qed.

Lemma lstrip_app_keep (u v : text) : lstrip v = v -> lstrip (u ++ v) = lstrip u ++ v.
Proof.
  intros Hv. induction u as [|c u IH]; simpl; [done|].
  by destruct (is_space c).
Qed.

Lemma rstrip_app_keep (a y : text) :
  lstrip (rev a) = rev a -> rstrip (a ++ y) = a ++ rstrip y.
Proof.
  intros Ha. unfold rstrip. rewrite rev_app_distr, lstrip_app_keep by done.
  by rewrite rev_app_distr, rev_involutive.
Qed.

(** The text that the classifier looks at, for a feedback that starts with
    a word [w] of capital letters. *)
Lemma feedback_lower_of (w w' : string) (rest : string) :
  lower (of_string w) = of_string w' ->
  lstrip (of_string w') = of_string w' ->
  lstrip (rev (of_string w')) = rev (of_string w') ->
  of_string w' <> [] ->
  strip (lower (of_string (w +:+ rest)))
  = of_string w' ++ rstrip (lower (of_string rest)).
Proof.
  intros Hlow Hl Hr Hne. rewrite of_string_app. unfold lower in *.
  rewrite map_app, Hlow. unfold strip.
  assert (Hkeep : lstrip (of_string w' ++ map lower_char (of_string rest))
                  = of_string w' ++ map lower_char (of_string rest)).
  { destruct (of_string w') as [|c x]; [done|]. simpl in *.
    destruct (is_space c); [|done].
    exfalso. apply (f_equal length) in Hl.
    destruct (lstrip_split x) as (sp & Hx & _).
    apply (f_equal length) in Hx. rewrite length_app in Hx. simpl in Hl. lia. }
  rewrite Hkeep. by apply rstrip_app_keep.
Qed.

(** X21.  The three words that the evaluation prompt tells the model to
    start its feedback with are classified as intended, whatever text
    follows them: CORRECT as correct, PARTIALLY_CORRECT and INCORRECT as
    not correct. *)
Theorem verdict_words_classified (rest : string) :
  ModelsUtils.is_correct ("CORRECT" +:+ rest) = true /\
  ModelsUtils.is_correct ("PARTIALLY_CORRECT" +:+ rest) = false /\
  ModelsUtils.is_correct ("INCORRECT" +:+ rest) = false.
Proof.
  unfold ModelsUtils.is_correct. repeat split.
  - rewrite (feedback_lower_of "CORRECT" "correct") by (reflexivity || discriminate).
    generalize (rstrip (lower (of_string rest))). intros [|c z]; by vm_compute.
  - rewrite (feedback_lower_of "PARTIALLY_CORRECT" "partially_correct")
      by (reflexivity || discriminate).
    generalize (rstrip (lower (of_string rest))). intros [|c z]; by vm_compute.
  - rewrite (feedback_lower_of "INCORRECT" "incorrect") by (reflexivity || discriminate).
    generalize (rstrip (lower (of_string rest))). intros [|c z]; by vm_compute.
Qed.

End VerdictWords.

(** ** Sign-up and the ledger *)

Section SignUpFacts.

(** X22.  The badge table keeps one row at most for a student and a badge
    name: a table with that property still has it after any run of
    [add_points] calls, whoever the students, whatever the points and the
    days. *)
Theorem badges_stay_unique (db : Db) (cs : list call) :
  badges_unique db -> badges_unique (run db cs).
Proof.
  revert db. induction cs as [|c cs IH]; intros db Hu; simpl; [done|].
  by apply IH, do_call_unique.
Qed.

Lemma badges_stay_unique_witness :
  badges_unique (run two_students_db busy_day) /\
  length (badges two_students_db) = 2%nat /\
  map badge_name (badges (run two_students_db busy_day))
  = ["Century"; "Week Warrior"; "Century"; "Week Warrior"] /\
  map badge_student_id (badges (run two_students_db busy_day)) = [8; 8; 7; 7].
Proof.
  split; [|by vm_compute].
  apply (badges_stay_unique two_students_db busy_day). intros student_id name.
  unfold badge_rows, two_students_db. cbn [badges].
  rewrite !filter_cons, filter_nil.
  repeat case_decide; simpl; try lia.
  destruct_and!. simplify_eq.
Defined.

(** X23.  [create_user] gives a student, and nobody else, a gamification
    profile: after the sign-up of a student who had none the profile is
    the default one and the first [add_points] call is credited in full;
    after the sign-up of a teacher or a parent the ledger is as it was, so
    that [add_points] for them changes nothing. *)
Theorem sign_up_opens_the_ledger (user_id : Z) (app : App) (data : user_data)
    (today points : Z) (reason : string) :
  student_gamification (ledger app) !! user_id = None ->
  let app' := snd (create_user user_id app data) in
  if String.eqb (data_role data) "student" then
    student_gamification (ledger app') !! user_id = Some default_profile /\
    total_of (snd (add_points today (ledger app') user_id points reason)) user_id
      = Some points
  else
    ledger app' = ledger app /\
    snd (add_points today (ledger app') user_id points reason) = ledger app.
Proof.
  intros Hnone app'. subst app'. unfold create_user. simpl.
  destruct (String.eqb (data_role data) "student").
  - unfold _initialize_gamification. rewrite Hnone. simpl.
    set (db0 := MkDb _ _ _).
    assert (Hrow : student_gamification db0 !! user_id = Some default_profile)
      by apply lookup_insert_eq.
    split; [exact Hrow|]. unfold total_of.
    by rewrite (add_points_row today db0 user_id points reason default_profile Hrow).
  - split; [done|]. by rewrite add_points_absent.
Qed.

Lemma sign_up_witness :
  let app' :=
    snd (create_user 7 (MkApp empty_db ∅ [] ∅)
           (UserData "Sam Lee" "sam@school.org" "5e88" "student" (Some "Grade 5") None)) in
  student_gamification (ledger app') !! 7 = Some default_profile /\
  total_of (snd (add_points 101 (ledger app') 7 10 "Paper Analysis Completed")) 7
    = Some 10.
Proof.
  apply (sign_up_opens_the_ledger 7 (MkApp empty_db ∅ [] ∅)
           (UserData "Sam Lee" "sam@school.org" "5e88" "student" (Some "Grade 5") None)
           101 10 "Paper Analysis Completed").
  reflexivity.
Defined.

End SignUpFacts.

(** ** The sign-up form *)

Section SignUpForm.

Lemma lower_keeps_class (c : ascii) :
  (email_local c = true -> email_local (lower_char c) = true) /\
  (email_domain c = true -> email_domain (lower_char c) = true) /\
  (is_alpha c = true -> is_alpha (lower_char c) = true) /\
  is_upper (lower_char c) = false /\
  (email_local c = true -> is_space c = false) /\
  (email_domain c = true -> is_space c = false) /\
  (is_alpha c = true -> is_space c = false) /\
  (is_space c = false -> is_space (lower_char c) = false).
Proof.
  destruct c as [[] [] [] [] [] [] [] []]; vm_compute; repeat split; auto.
Qed.

Lemma lstrip_id (x : text) :
  (forall c, head x = Some c -> is_space c = false) -> lstrip x = x.
Proof.
  destruct x as [|c x]; simpl; [done|]. intros H. by rewrite (H c eq_refl).
Qed.

Lemma lstrip_spaces (x : text) : forallb is_space x = true -> lstrip x = [].
Proof.
  induction x as [|c x IH]; simpl; [done|].
  intros H. apply andb_true_iff in H as [-> H]. auto.
Qed.

Lemma strip_core (core tail : text) :
  core <> [] ->
  Forall (fun c => is_space c = false) core ->
  forallb is_space tail = true ->
  strip (core ++ tail) = core.
Proof.
  intros Hne Hcore Htail. unfold strip.
  rewrite lstrip_id.
  - rewrite rstrip_app_keep.
    + unfold rstrip at 1. rewrite lstrip_spaces, app_nil_r; [done|].
      rewrite forallb_forall in *. intros c Hc. apply Htail. by apply in_rev.
    + apply lstrip_id. intros c Hc. rewrite Forall_forall in Hcore. apply Hcore.
      apply list_elem_of_In, in_rev, list_elem_of_In.
      destruct (rev core); [discriminate|]. injection Hc as ->. by left.
  - intros c Hc. destruct core as [|d core]; [done|].
    simpl in Hc. injection Hc as ->. by apply Forall_cons in Hcore as [? _].
Qed.

Lemma forallb_lower (p : ascii -> bool) (x : text) :
  (forall c, p c = true -> p (lower_char c) = true) ->
  forallb p x = true -> forallb p (lower x) = true.
Proof.
  intros Hp. unfold lower. induction x as [|c x IH]; simpl; [done|].
  intros H. apply andb_true_iff in H as [Hc Hx]. by rewrite (Hp c Hc), IH.
Qed.

Lemma forallb_Forall_nonspace (p : ascii -> bool) (x : text) :
  (forall c, p c = true -> is_space c = false) ->
  forallb p x = true -> Forall (fun c => is_space c = false) x.
Proof.
  intros Hp. induction x as [|c x IH]; simpl; [constructor|].
  intros H. apply andb_true_iff in H as [Hc Hx]. constructor; auto.
Qed.

(** The texts that [email_pattern] matches from their start. *)
Lemma accepted_email_shape (s : text) :
  is_some (re_match email_pattern s) = true <->
  exists loc dom tld tail : text,
    s = loc ++ "@"%char :: dom ++ "."%char :: tld ++ tail /\
    loc <> [] /\ forallb email_local loc = true /\
    dom <> [] /\ forallb email_domain dom = true /\
    (2 <= length tld)%nat /\ forallb is_alpha tld = true /\
    (tail = [] \/ tail = ["010"%char]).
Proof.
  rewrite re_match_spec. split.
  - intros (j & Hm). apply email_pattern_matches in Hm as [Hm He].
    destruct (matches_bounds s _ _ _ Hm) as [_ Hj]. specialize (Hj ltac:(lia)).
    apply matches_lmatch in Hm; [|reflexivity|lia].
    apply email_language in Hm as (loc & dom & tld & Hu & Hrest).
    apply at_eol_drop in He; [|done].
    exists loc, dom, tld, (drop j s). split.
    + rewrite (slice_whole s j) at 1. rewrite Hu.
      rewrite <- !app_assoc. simpl. by rewrite <- !app_assoc.
    + destruct Hrest as (? & ? & ? & ? & ? & ?). done.
  - intros (loc & dom & tld & tail & Hs & Hl1 & Hl2 & Hd1 & Hd2 & Hlen & Htld & Htail).
    set (u := loc ++ "@"%char :: dom ++ "."%char :: tld).
    assert (Hu : lmatch (cat email_body) u).
    { apply email_language. exists loc, dom, tld. done. }
    assert (Hsu : s = [] ++ u ++ tail).
    { rewrite Hs. unfold u. simpl. rewrite <- !app_assoc. simpl.
      by rewrite <- !app_assoc. }
    exists (length u). apply email_pattern_matches. split.
    + rewrite Hsu. exact (lmatch_matches _ _ Hu [] tail).
    + apply at_eol_drop; [rewrite Hsu; simpl; rewrite length_app; lia|].
      rewrite Hsu. simpl. rewrite drop_app_length. done.
Qed.

(** The address that is stored for an address that passes the check. *)
Lemma stored_email (s : text) :
  (exists loc dom tld tail : text,
     s = loc ++ "@"%char :: dom ++ "."%char :: tld ++ tail /\
     loc <> [] /\ forallb email_local loc = true /\
     dom <> [] /\ forallb email_domain dom = true /\
     (2 <= length tld)%nat /\ forallb is_alpha tld = true /\
     (tail = [] \/ tail = ["010"%char])) ->
  exists loc dom tld : text,
    strip (lower s) = loc ++ "@"%char :: dom ++ "."%char :: tld /\
    loc <> [] /\ forallb email_local loc = true /\
    dom <> [] /\ forallb email_domain dom = true /\
    (2 <= length tld)%nat /\ forallb is_alpha tld = true /\
    Forall (fun c => is_space c = false /\ is_upper c = false) (strip (lower s)).
Proof.
  intros (loc & dom & tld & tail & -> & Hl1 & Hl2 & Hd1 & Hd2 & Hlen & Htld & Htail).
  exists (lower loc), (lower dom), (lower tld).
  assert (Hlow : lower (loc ++ "@"%char :: dom ++ "."%char :: tld ++ tail)
                 = (lower loc ++ "@"%char :: lower dom ++ "."%char :: lower tld) ++ tail).
  { unfold lower. rewrite map_app. simpl. rewrite map_app. simpl. rewrite map_app.
    rewrite <- !app_assoc. simpl. rewrite <- !app_assoc. simpl.
    do 4 f_equal. destruct Htail as [->| ->]; reflexivity. }
  assert (Hloc := forallb_lower _ loc (fun c => proj1 (lower_keeps_class c)) Hl2).
  assert (Hdom := forallb_lower _ dom
                    (fun c => proj1 (proj2 (lower_keeps_class c))) Hd2).
  assert (Htl := forallb_lower _ tld
                   (fun c => proj1 (proj2 (proj2 (lower_keeps_class c)))) Htld).
  assert (Hcore : Forall (fun c => is_space c = false)
                    (lower loc ++ "@"%char :: lower dom ++ "."%char :: lower tld)).
  { apply Forall_app. split.
    - eapply forallb_Forall_nonspace; [|exact Hloc]. intros c. apply lower_keeps_class.
    - constructor; [reflexivity|]. apply Forall_app. split.
      + eapply forallb_Forall_nonspace; [|exact Hdom]. intros c. apply lower_keeps_class.
      + constructor; [reflexivity|].
        eapply forallb_Forall_nonspace; [|exact Htl]. intros c. apply lower_keeps_class. }
  rewrite Hlow, strip_core; [| |done|].
  - split; [done|]. unfold lower in *. rewrite length_map.
    repeat split; try done.
    + by destruct loc.
    + by destruct dom.
    + assert (Hup : forall x : text, Forall (fun c => is_upper c = false) (map lower_char x)).
      { intros x. induction x; simpl; constructor; [apply lower_keeps_class|done]. }
      rewrite Forall_forall in Hcore. apply Forall_forall. intros c Hc.
      split; [by apply Hcore|].
      apply elem_of_app in Hc as [Hc|Hc].
      { pose proof (Hup loc) as H. rewrite Forall_forall in H. by apply H. }
      apply elem_of_cons in Hc as [->|Hc]; [reflexivity|].
      apply elem_of_app in Hc as [Hc|Hc].
      { pose proof (Hup dom) as H. rewrite Forall_forall in H. by apply H. }
      apply elem_of_cons in Hc as [->|Hc]; [reflexivity|].
      pose proof (Hup tld) as H. rewrite Forall_forall in H. by apply H.
  - destruct (lower loc); discriminate.
  - destruct Htail as [->| ->]; reflexivity.
Qed.

(** X24.  A sign-up form without error stores a clean account: the name
    stored is not empty, the address stored (lower-cased and stripped) again
    passes [validate_email] and has no white space and no capital letter,
    the password is strong and equals its confirmation. *)
Theorem accepted_sign_up_is_clean (hash_password : string -> string)
    (full_name email password confirm_password role student_class : string) :
  signup_errors full_name email password confirm_password = [] ->
  let data := signup_user_data hash_password full_name email password role student_class in
  of_string (data_full_name data) <> [] /\
  validate_email (data_email data) = true /\
  Forall (fun c => is_space c = false /\ is_upper c = false)
         (of_string (data_email data)) /\
  fst (validate_password password) = true /\
  password = confirm_password.
Proof.
  intros H data. subst data. unfold signup_errors in H. simpl.
  apply app_eq_nil in H as [Hname H]. apply app_eq_nil in H as [Hmail H].
  apply app_eq_nil in H as [Hpw Heq].
  unfold of_string, to_string. rewrite !String.list_ascii_of_string_of_list_ascii.
  fold (of_string full_name) (of_string email).
  destruct (is_empty (strip (of_string full_name))) eqn:En; [discriminate|].
  destruct (validate_email email) eqn:Em; [|discriminate].
  destruct (fst (validate_password password)); [|discriminate].
  destruct (String.eqb_spec password confirm_password) as [->|]; [|discriminate].
  unfold validate_email in Em. apply accepted_email_shape in Em.
  destruct (stored_email (of_string email) Em)
    as (loc & dom & tld & Hs & Hl1 & Hl2 & Hd1 & Hd2 & Hlen & Htld & Hclean).
  split; [by destruct (strip (of_string full_name))|].
  split; [|done].
  unfold validate_email, of_string at 1.
  rewrite String.list_ascii_of_string_of_list_ascii.
  apply accepted_email_shape. exists loc, dom, tld, [].
  rewrite app_nil_r. repeat split; try done. by left.
Qed.

Lemma accepted_sign_up_witness :
  let data := signup_user_data (fun p => p) " Sam Lee " "Sam.Lee@School-Mail.org
" "Tr1angle" "student" "Grade 5" in
  of_string (data_full_name data) <> [] /\
  validate_email (data_email data) = true /\
  Forall (fun c => is_space c = false /\ is_upper c = false)
         (of_string (data_email data)) /\
  fst (validate_password "Tr1angle") = true /\
  "Tr1angle" = "Tr1angle".
Proof.
  apply (accepted_sign_up_is_clean (fun p => p) " Sam Lee " "Sam.Lee@School-Mail.org
" "Tr1angle" "Tr1angle" "student" "Grade 5").
  by vm_compute.
Defined.

End SignUpForm.

(** ** What a verdict of correct rests on *)

Section VerdictFacts.

Lemma lmatch_chars (l u : text) :
  lmatch (cat (map (fun c => Chr (Ascii.eqb c)) l)) u <-> u = l.
Proof.
  revert u. induction l as [|c l IH]; intros u.
  - apply lmatch_cat_nil.
  - change (map (fun c0 => Chr (Ascii.eqb c0)) (c :: l))
      with (Chr (Ascii.eqb c) :: map (fun c0 => Chr (Ascii.eqb c0)) l).
    rewrite lmatch_cat_cons. split.
    + intros (v & w & -> & Hv & Hw). apply lmatch_char in Hv as ->.
      apply IH in Hw as ->. done.
    + intros ->. exists [c], l. split; [done|]. split; [by apply lmatch_char|by apply IH].
Qed.

Lemma pure_chars (l : text) : pure (cat (map (fun c => Chr (Ascii.eqb c)) l)) = true.
Proof. induction l as [|c l IH]; simpl; [done|exact IH]. Qed.

Lemma matches_lit_slice (s : text) (w : string) i j :
  matches s (lit w) i j -> (i <= length s)%nat ->
  slice s i j = of_string w /\ (i <= j)%nat /\ (j <= length s)%nat.
Proof.
  intros Hm Hi. destruct (matches_bounds s _ _ _ Hm) as [Hij Hj].
  apply matches_lmatch in Hm; [|apply pure_chars|done].
  apply lmatch_chars in Hm. auto.
Qed.

Lemma slice_split (s : text) i j :
  (i <= j)%nat -> s = take i s ++ slice s i j ++ drop j s.
Proof.
  intros Hij. unfold slice.
  rewrite <- (take_drop i s) at 1. f_equal.
  rewrite <- (take_drop (j - i) (drop i s)) at 1. f_equal.
  rewrite drop_drop. f_equal. lia.
Qed.

(** A text between two word boundaries that starts and ends with a word
    character is a word of its own. *)
Lemma boundaries_whole_word (s w : text) i j a b :
  slice s i j = w -> (i <= j)%nat -> (j <= length s)%nat ->
  head w = Some a -> is_word a = true ->
  last w = Some b -> is_word b = true ->
  boundary s i = true -> boundary s j = true ->
  whole_word s w.
Proof.
  intros Hw Hij Hj Ha Hwa Hb Hwb Bi Bj.
  assert (Hlen : length w = (j - i)%nat).
  { rewrite <- Hw. unfold slice. rewrite length_take, length_drop. lia. }
  assert (Hlt : (i < j)%nat).
  { destruct w; [discriminate|]. simpl in Hlen. lia. }
  assert (Hsi : s !! i = Some a).
  { rewrite <- Ha, <- Hw. unfold slice. rewrite head_lookup, lookup_take_lt by lia.
    rewrite lookup_drop. f_equal. lia. }
  assert (Hsj : s !! (j - 1)%nat = Some b).
  { rewrite <- Hb, <- Hw. rewrite last_lookup. unfold slice.
    rewrite length_take, length_drop, lookup_take_lt by lia.
    rewrite lookup_drop. f_equal. lia. }
  exists (take i s), (drop j s). split; [|split].
  - rewrite <- Hw. by apply slice_split.
  - intros c Hc. rewrite last_lookup, length_take in Hc.
    destruct i as [|i']; [done|].
    replace (Init.Nat.pred (S i' `min` length s)) with i' in Hc by lia.
    rewrite lookup_take_lt in Hc by lia.
    change (xorb (word_at s i') (word_at s (S i')) = true) in Bi.
    unfold word_at, text in *. rewrite Hc, Hsi, Hwa in Bi.
    by destruct (is_word c).
  - intros c Hc. rewrite head_lookup, lookup_drop in Hc.
    replace (j + 0)%nat with j in Hc by lia.
    destruct j as [|j']; [lia|].
    replace (S j' - 1)%nat with j' in Hsj by lia.
    change (xorb (word_at s j') (word_at s (S j')) = true) in Bj.
    unfold word_at, text in *. rewrite Hc, Hsj, Hwb in Bj. by destruct (is_word c).
Qed.

Lemma matches_alt (s : text) rs i j :
  matches s (alt rs) i j -> exists r, In r rs /\ matches s r i j.
Proof.
  induction rs as [|r rs IH]; simpl.
  - intros H. inversion H; subst. discriminate.
  - destruct rs as [|r' rs].
    + intros H. exists r. split; [by left|done].
    + intros H. inversion H; subst.
      * exists r. split; [by left|done].
      * destruct IH as (r0 & Hin & Hr0); [done|]. exists r0. split; [by right|done].
Qed.

Lemma startswith_prefix (s p : text) : startswith s p = true -> exists post, s = p ++ post.
Proof.
  revert s. induction p as [|a p IH]; intros s; simpl.
  - destruct s; intros _; eauto.
  - destruct s as [|b s]; [discriminate|]. intros H.
    apply andb_true_iff in H as [Hab H]. apply Ascii.eqb_eq in Hab as ->.
    destruct (IH s H) as (post & ->). by exists post.
Qed.

Lemma startswith_app (p x : text) : startswith (p ++ x) p = true.
Proof.
  induction p as [|a p IH]; simpl; [by destruct x|].
  by rewrite Ascii.eqb_refl.
Qed.

(** X25.  An answer is only counted as correct when the feedback says so:
    if the classifier answers true, then the feedback, lower-cased and
    stripped, starts with "correct", or one of right, well done, excellent,
    perfect, great job stands in it as a word of its own.  A "correct"
    that is not at the start does not count. *)
Theorem correct_verdict_has_a_positive_word (feedback : string) :
  ModelsUtils.is_correct feedback = true ->
  let s := strip (lower (of_string feedback)) in
  startswith s (of_string "correct") = true
  \/ exists w, In w praise_words /\ whole_word s (of_string w).
Proof.
  intros H s. unfold ModelsUtils.is_correct in H. fold s in H.
  destruct (startswith s (of_string "correct")) eqn:Ec; [by left|right].
  destruct (startswith s (of_string "partially")); [discriminate|].
  destruct (startswith s (of_string "incorrect") || startswith s (of_string "wrong"));
    [discriminate|].
  destruct (is_some (re_search ModelsUtils.negative_indicators s)); [discriminate|].
  destruct (is_some (re_search ModelsUtils.positive_indicators s)) eqn:Ep;
    [|discriminate].
  clear H. apply re_search_spec in Ep as (i & j & Hi & Hm).
  unfold ModelsUtils.positive_indicators in Hm. simpl cat in Hm.
  inversion Hm as [| | ? ? ? i1 ? Hb Hrest| | | | | | | | | |]; subst.
  inversion Hb as [| | | | | | | | | |? Bi| |]; subst.
  inversion Hrest as [| | ? ? ? j1 ? Hg Hrest2| | | | | | | | | |]; subst.
  inversion Hg as [| | | | | | | | | | | |? ? ? Halt]; subst.
  inversion Hrest2 as [| | ? ? ? j2 ? Hb2 He| | | | | | | | | |]; subst.
  inversion Hb2 as [| | | | | | | | | |? Bj| |]; subst.
  apply (matches_alt s [cat [Bos; lit "correct"]; lit "right"; lit "well done";
                         lit "excellent"; lit "perfect"; lit "great job"])
    in Halt as (r & Hin & Hr).
  assert (Hword : forall (w : string) a b,
            matches s (lit w) i1 j2 ->
            head (of_string w) = Some a -> is_word a = true ->
            last (of_string w) = Some b -> is_word b = true ->
            whole_word s (of_string w)).
  { intros w a b Hl Ha Hwa Hlast Hwb.
    apply matches_lit_slice in Hl as (Hs & Hij & Hj); [|done].
    by eapply boundaries_whole_word. }
  simpl in Hin.
  destruct Hin as [<-|[<-|[<-|[<-|[<-|[<-|[]]]]]]].
  - exfalso. simpl cat in Hr.
    inversion Hr as [| | ? ? ? i2 ? Hbos Hl| | | | | | | | | |]; subst.
    inversion Hbos; subst.
    inversion Hl as [| | ? ? ? i3 ? Hlit _| | | | | | | | | |]; subst.
    apply matches_lit_slice in Hlit as (Hs & _ & _); [|lia].
    assert (Hst : startswith s (of_string "correct") = true); [|congruence].
    rewrite (slice_split s 0 i3) by lia. rewrite Hs, take_0.
    exact (startswith_app (of_string "correct") (drop i3 s)).
  - exists "right". split; [by left|]. by eapply Hword.
  - exists "well done". split; [right; by left|]. by eapply Hword.
  - exists "excellent". split; [do 2 right; by left|]. by eapply Hword.
  - exists "perfect". split; [do 3 right; by left|]. by eapply Hword.
  - exists "great job". split; [do 4 right; by left|]. by eapply Hword.
Qed.

Lemma correct_verdict_witness :
  let s := strip (lower (of_string "  The correct answer is 7: you are RIGHT. ")) in
  startswith s (of_string "correct") = true
  \/ exists w, In w praise_words /\ whole_word s (of_string w).
Proof.
  apply (correct_verdict_has_a_positive_word
           "  The correct answer is 7: you are RIGHT. ").
  by vm_compute.
Defined.

End VerdictFacts.

(** ** Where the extraction stops, and the longest streak *)

Section StopFacts.

Lemma matches_lit_head (s : text) (c : ascii) (w : string) i j :
  matches s (lit (String c w)) i j -> s !! i = Some c.
Proof.
  unfold lit. simpl. intros H.
  inversion H as [| | ? ? ? i1 ? Hc _| | | | | | | | | |]; subst.
  inversion Hc as [|? ? d Hl Hd| | | | | | | | | | |]; subst.
  by apply Ascii.eqb_eq in Hd as ->.
Qed.

(** A line of bullets starts with an asterisk, with the first byte of the
    round bullet, or with a hyphen. *)
Lemma only_bullets_first (line : text) :
  is_some (re_match only_bullets line) = true ->
  exists c rest, line = c :: rest
                 /\ (c = "*"%char \/ c = "226"%char \/ c = "-"%char).
Proof.
  intros H. apply re_match_spec in H as (j & Hm).
  unfold only_bullets in Hm. simpl cat in Hm.
  inversion Hm as [| | ? ? ? i1 ? Hb Hrest| | | | | | | | | |]; subst.
  inversion Hb; subst.
  inversion Hrest as [| | ? ? ? i2 ? Hp _| | | | | | | | | |]; subst.
  unfold plus in Hp.
  inversion Hp as [| | ? ? ? i3 ? Hc _| | | | | | | | | |]; subst.
  apply (matches_alt line [lit "*"; lit "•"; lit "-"]) in Hc as (r & Hin & Hr).
  assert (Hhead : exists c, line !! 0%nat = Some c
                            /\ (c = "*"%char \/ c = "226"%char \/ c = "-"%char)).
  { destruct Hin as [<-|[<-|[<-|[]]]]; apply matches_lit_head in Hr; eauto. }
  destruct Hhead as (c & Hl & Hc).
  destruct line as [|d rest]; [discriminate|]. simpl in Hl. injection Hl as ->.
  by exists c, rest.
Qed.

Lemma line_step_stops (line : text) :
  startswith (strip line) (of_string "|") = true
  \/ startswith (strip line) (of_string "You're") = true ->
  line_step line = Break.
Proof.
  intros Hstart. unfold line_step.
  assert (Hfirst : exists c rest, strip line = c :: rest
                                  /\ (c = "|"%char \/ c = "Y"%char)).
  { destruct Hstart as [H|H]; apply startswith_prefix in H as (post & ->);
      simpl; eauto. }
  destruct Hfirst as (c & rest & Hs & Hc).
  assert (Hnb : is_some (re_match only_bullets (strip line)) = false).
  { destruct (is_some (re_match only_bullets (strip line))) eqn:E; [|done].
    apply only_bullets_first in E as (c' & rest' & Hs' & Hc').
    rewrite Hs in Hs'. injection Hs' as <- _.
    destruct Hc as [->| ->], Hc' as [?|[?|?]]; discriminate. }
  assert (Hne : is_empty (strip line) = false) by by rewrite Hs.
  rewrite Hne, Hnb. cbn [orb].
  destruct Hstart as [H|H].
  - rewrite H.
    by destruct (startswith (strip line) (of_string "You're")
                 || is_some (re_search encouragement (strip line))).
  - by rewrite H.
Qed.

(** X26.  The extraction stops at a table row and at a line that starts
    with "You're": in the loop over the lines of the section, the lines
    after such a line contribute no topic, whatever they contain. *)
Theorem extraction_stops_at_prose (before after : list text) (line : text) :
  startswith (strip line) (of_string "|") = true
  \/ startswith (strip line) (of_string "You're") = true ->
  scan (before ++ line :: after) = scan before.
Proof.
  intros Hstart. apply line_step_stops in Hstart.
  induction before as [|l before IH]; simpl.
  - by rewrite Hstart.
  - destruct (line_step l); [exact IH|done|by rewrite IH].
Qed.

Lemma extraction_stops_witness :
  scan (map of_string ["• Fractions"; "  | Topic | Score |"; "• Decimals"])
  = scan (map of_string ["• Fractions"]).
Proof.
  apply (extraction_stops_at_prose (map of_string ["• Fractions"])
           (map of_string ["• Decimals"]) (of_string "  | Topic | Score |")).
  left. by vm_compute.
Defined.

Lemma do_call_longest (db : Db) (c : call) (student_id : Z) (p : profile) :
  student_gamification db !! student_id = Some p ->
  exists p',
    student_gamification (do_call db c) !! student_id = Some p' /\
    longest_streak p <= longest_streak p'.
Proof.
  intros E. unfold do_call.
  destruct (decide (student_id = call_student_id c)) as [->|Hne].
  - rewrite (add_points_row _ _ _ _ _ _ E). eexists. split; [done|]. simpl. lia.
  - rewrite add_points_other by done. exists p. split; [done|lia].
Qed.

(** X27.  The longest streak is never lost: along any run of [add_points]
    calls, whatever the days (also after a gap that resets the current
    streak) and whatever the points, the longest streak of a student with a
    profile does not decrease. *)
Theorem longest_streak_never_decreases (db : Db) (cs : list call) (student_id : Z)
    (p : profile) :
  student_gamification db !! student_id = Some p ->
  exists p',
    student_gamification (run db cs) !! student_id = Some p' /\
    longest_streak p <= longest_streak p'.
Proof.
  revert db p. induction cs as [|c cs IH]; intros db p E; simpl.
  - exists p. split; [done|lia].
  - destruct (do_call_longest db c student_id p E) as (p1 & E1 & H1).
    destruct (IH _ _ E1) as (p' & E' & H'). exists p'. split; [done|lia].
Qed.

Lemma longest_streak_witness :
  let db' := run two_students_db [Call 104 8 5 "Practice: Fractions";
                                  Call 105 8 5 "Practice: Fractions"] in
  (exists p', student_gamification db' !! 8 = Some p' /\ 7 <= longest_streak p') /\
  streak_of two_students_db 8 = Some 7 /\
  streak_of db' 8 = Some 2.
Proof.
  split; [|by vm_compute].
  apply (longest_streak_never_decreases two_students_db
           [Call 104 8 5 "Practice: Fractions"; Call 105 8 5 "Practice: Fractions"]
           8 (Profile 120 2 7 7 (Some 100))).
  reflexivity.
Defined.

End StopFacts.
